(** * VoxelBotUtils: the reaction paginator and the global command-error handler

  A shallow embedding of
    - [src/voxelbotutils/cogs/utils/paginator.py]  (class [Paginator])
    - [src/voxelbotutils/cogs/error_handler.py]    (class [ErrorHandler])
  Python integers are [Z], dictionaries are [gmap], strings are [string],
  exceptions are an explicit result type, and the effects on the chat
  platform (send, edit, reactions, webhook) are recorded in a trace. *)

From stdpp Require Import gmap strings list pretty.

Open Scope Z_scope.

(** ** The Python fragment both files rely on *)

Module Py.

(** The exceptions that can travel through the modelled code. *)
Inductive exn :=
| TypeError
| AttributeError
| NameError
| UnboundLocalError
| ValueError
| IndexError
| ZeroDivisionError
| StopIteration
| StopAsyncIteration
| Forbidden            (* discord.Forbidden *)
| NotFound             (* discord.NotFound *)
| HTTPException        (* any other discord.HTTPException *)
| OtherException (name : string).

Inductive result (T : Type) :=
| Ok (v : T)
| Raise (e : exn).
Arguments Ok {T} v.
Arguments Raise {T} e.

Definition bind {T U} (r : result T) (k : T -> result U) : result U :=
  match r with
  | Ok v => k v
  | Raise e => Raise e
  end.

(** A value that is either an [int] or the string ["?"]: the two shapes
    [Paginator.max_pages] takes. *)
Inductive num :=
| QMark
| Int (n : Z).

(** [a == k] for an integer literal [k]: never raises, a string is never
    equal to an integer. *)
Definition eq_int (a : num) (k : Z) : bool :=
  match a with
  | Int n => n =? k
  | QMark => false
  end.

(** Ordering comparisons: between two integers they are the integer order,
    between ["?"] and ["?"] the string order, and between a string and an
    integer Python 3 raises [TypeError]. *)
Definition gt (a b : num) : result bool :=
  match a, b with
  | Int x, Int y => Ok (y <? x)
  | QMark, QMark => Ok false
  | _, _ => Raise TypeError
  end.

Definition ge (a b : num) : result bool :=
  match a, b with
  | Int x, Int y => Ok (y <=? x)
  | QMark, QMark => Ok true
  | _, _ => Raise TypeError
  end.

Definition lt (a b : num) : result bool :=
  match a, b with
  | Int x, Int y => Ok (x <? y)
  | QMark, QMark => Ok false
  | _, _ => Raise TypeError
  end.

(** [a + k] and [a - k] for an integer literal [k]; [str - int] and
    [str + int] raise [TypeError]. *)
Definition add_int (a : num) (k : Z) : result num :=
  match a with
  | Int n => Ok (Int (n + k))
  | QMark => Raise TypeError
  end.

Definition sub_int (a : num) (k : Z) : result num :=
  match a with
  | Int n => Ok (Int (n - k))
  | QMark => Raise TypeError
  end.

(** One bound of a slice, adjusted as CPython does for a step of 1: a
    negative bound counts from the end, then both are clipped to
    [0, len]. *)
Definition slice_bound (len i : Z) : Z :=
  if i <? 0 then Z.max 0 (i + len) else Z.min i len.

(** [l[lo:hi]] on a list. *)
Definition slice {T} (l : list T) (lo hi : Z) : list T :=
  let len := Z.of_nat (length l) in
  let a := slice_bound len lo in
  let b := slice_bound len hi in
  take (Z.to_nat (b - a)) (drop (Z.to_nat a) l).

End Py.

Import Py.

(** ** paginator.py *)

Module Paginator.

Section WithItems.

(** The type of the items being paginated. *)
Context {A : Type}.

(** A page handed to the formatter: a Python object, so it carries its
    identity next to its content. *)
Record page := Page { page_id : nat; page_items : list A }.

(** A generator (or the body of a generator function): what it yields at
    each position, [None] once it is exhausted, and how far it has run. *)
Record generator := Gen { gen_body : nat -> option (list A); gen_pos : nat }.

(** The [data] argument, by what [inspect] says about it. *)
Inductive source :=
| Sequence (items : list A)
| Generator (g : generator)
| AsyncGenerator (g : generator)
| GeneratorFunction (g : generator)
| AsyncGeneratorFunction (g : generator).

Definition isasyncgenfunction (d : source) : bool :=
  match d with AsyncGeneratorFunction _ => true | _ => false end.
Definition isasyncgen (d : source) : bool :=
  match d with AsyncGenerator _ => true | _ => false end.
Definition isgeneratorfunction (d : source) : bool :=
  match d with GeneratorFunction _ => true | _ => false end.
Definition isgenerator (d : source) : bool :=
  match d with Generator _ => true | _ => false end.

(** What a call touched in the data source. *)
Inductive access :=
| TookSlice (lo hi : Z)
| Pulled (n : nat).

(** The instance attributes of a [Paginator] (the formatter is passed to
    [start] separately), with two pieces of bookkeeping that are not Python
    attributes: [allocated], the number of page objects created so far, and
    [source_log], the accesses made to [data], latest first. *)
Record Paginator := Build {
  data : source;
  per_page : Z;
  current_page : option num;
  _page_cache : gmap Z page;
  max_pages : num;
  allocated : nat;
  source_log : list access;
}.

Definition set_data (d : source) (p : Paginator) : Paginator :=
  Build d (per_page p) (current_page p) (_page_cache p) (max_pages p)
        (allocated p) (source_log p).
Definition set_current_page (c : option num) (p : Paginator) : Paginator :=
  Build (data p) (per_page p) c (_page_cache p) (max_pages p)
        (allocated p) (source_log p).
Definition set_page_cache (m : gmap Z page) (p : Paginator) : Paginator :=
  Build (data p) (per_page p) (current_page p) m (max_pages p)
        (allocated p) (source_log p).
Definition set_max_pages (m : num) (p : Paginator) : Paginator :=
  Build (data p) (per_page p) (current_page p) (_page_cache p) m
        (allocated p) (source_log p).

(** A fresh page object holding [items], and the access that produced it. *)
Definition allocate (items : list A) (a : access) (p : Paginator)
  : Paginator * page :=
  (Build (data p) (per_page p) (current_page p) (_page_cache p) (max_pages p)
         (S (allocated p)) (a :: source_log p),
   Page (allocated p) items).

(** [__init__]: [len(data)] is only taken of a sequence, and [divmod] by
    zero raises. *)
Definition __init__ (d : source) (per_page : Z) : result Paginator :=
  let self := Build d per_page None ∅ QMark 0%nat [] in
  let data_is_generator :=
    isasyncgenfunction d || isasyncgen d || isgeneratorfunction d || isgenerator d in
  if negb data_is_generator then
    match d with
    | Sequence items =>
        if per_page =? 0 then Raise ZeroDivisionError
        else
          let len := Z.of_nat (length items) in
          let pages := len `div` per_page in
          let left_over := len `mod` per_page in
          let pages := if negb (left_over =? 0) then pages + 1 else pages in
          Ok (set_max_pages (Int pages) self)
    | _ => Raise TypeError
    end
  else Ok self.

(** The builtin [next(x)]: only a (synchronous) generator object is an
    iterator; anything else here raises [TypeError]. *)
Definition next (p : Paginator) : Paginator * result page :=
  match data p with
  | Generator g =>
      match gen_body g (gen_pos g) with
      | Some items =>
          let (p', v) := allocate items (Pulled (gen_pos g)) p in
          (set_data (Generator (Gen (gen_body g) (S (gen_pos g)))) p', Ok v)
      | None => (p, Raise StopIteration)
      end
  | _ => (p, Raise TypeError)
  end.

(** [await x.__anext__()]: only an asynchronous generator object has the
    attribute; on anything else here the lookup raises [AttributeError]. *)
Definition __anext__ (p : Paginator) : Paginator * result page :=
  match data p with
  | AsyncGenerator g =>
      match gen_body g (gen_pos g) with
      | Some items =>
          let (p', v) := allocate items (Pulled (gen_pos g)) p in
          (set_data (AsyncGenerator (Gen (gen_body g) (S (gen_pos g)))) p', Ok v)
      | None => (p, Raise StopAsyncIteration)
      end
  | _ => (p, Raise AttributeError)
  end.

(** [self.data[lo:hi]]: a new list object; generators and functions are
    not subscriptable. *)
Definition getitem_slice (p : Paginator) (lo hi : Z) : Paginator * result page :=
  match data p with
  | Sequence items =>
      let (p', v) := allocate (slice items lo hi) (TookSlice lo hi) p in
      (p', Ok v)
  | _ => (p, Raise TypeError)
  end.

(** The body of the [try] in [get_page] (lines 154-159). *)
Definition get_page_try (self : Paginator) (page_number : Z)
  : Paginator * result page :=
  if isasyncgenfunction (data self) || isasyncgen (data self) then
    next self
  else if isgeneratorfunction (data self) || isgenerator (data self) then
    __anext__ self
  else
    getitem_slice self (page_number * per_page self)
                  ((page_number + 1) * per_page self).

Definition is_stop (e : exn) : bool :=
  match e with StopIteration | StopAsyncIteration => true | _ => false end.

(** [get_page] (lines 151-164). In the handler [v] has not been assigned
    (the exception left the right-hand side of every assignment to it), so
    [return v] raises [UnboundLocalError]. *)
Definition get_page (self : Paginator) (page_number : Z)
  : Paginator * result page :=
  match _page_cache self !! page_number with
  | Some v => (self, Ok v)
  | None =>
      match get_page_try self page_number with
      | (self', Ok v) =>
          (set_page_cache (<[page_number := v]> (_page_cache self')) self', Ok v)
      | (self', Raise e) =>
          if is_stop e then
            (set_max_pages (Int page_number) self', Raise UnboundLocalError)
          else (self', Raise e)
      end
  end.

(** *** The interactive session ([start]) *)

(** The five navigation symbols of [valid_emojis], in the order of the list:
    BLACK LEFT-POINTING DOUBLE TRIANGLE, LEFTWARDS BLACK ARROW, BLACK SQUARE
    FOR STOP, BLACK RIGHTWARDS ARROW, BLACK RIGHT-POINTING DOUBLE TRIANGLE. *)
Inductive emoji :=
| FirstPage
| PreviousPage
| StopSquare
| NextPage
| LastPage.

Definition valid_emojis : list emoji :=
  [FirstPage; PreviousPage; StopSquare; NextPage; LastPage].

(** What a formatter may return, and the values of the keyword dictionary
    passed to [Message.edit]. *)
Record embed := Embed {
  embed_colour : Z;
  embed_description : string;
  embed_footer : string;
}.

Inductive pyobj :=
| PNone
| PStr (s : string)
| PEmbed (e : embed).

Inductive rendered :=
| RStr (s : string)
| REmbed (e : embed)
| RDict (d : gmap string pyobj).

#[export] Instance embed_eq_dec : EqDecision embed.
Proof. solve_decision. Defined.
#[export] Instance pyobj_eq_dec : EqDecision pyobj.
Proof. solve_decision. Defined.

(** [d.setdefault(k, v)] *)
Definition setdefault (k : string) (v : pyobj) (d : gmap string pyobj)
  : gmap string pyobj :=
  match d !! k with
  | Some _ => d
  | None => <[k := v]> d
  end.

(** Lines 87-92: the formatter's value brought to a dictionary that has both
    a ["content"] and an ["embed"] key. *)
Definition normalize (payload : rendered) : gmap string pyobj :=
  let payload :=
    match payload with
    | REmbed e => {["embed" := PEmbed e]}
    | RStr s => {["content" := PStr s]}
    | RDict d => d
    end in
  setdefault "embed" PNone (setdefault "content" PNone payload).

(** [payload != last_payload], where [last_payload] is [None] or an earlier
    dictionary. *)
Definition payload_ne (payload : gmap string pyobj)
           (last_payload : option (gmap string pyobj)) : bool :=
  match last_payload with
  | None => true
  | Some d => bool_decide (payload ≠ d)
  end.

(** The operations on the chat platform, in the order they are issued. *)
Inductive effect :=
| CtxSend (text : string)
| AddReactionTask (e : emoji)
| MessageEdit (payload : gmap string pyobj)
| ClearReactions.

(** The platform: given what was issued so far and the operation awaited
    now, whether that operation raises. Tasks made with [create_task] run on
    their own and their failures never reach [start]. *)
Definition platform := list effect -> effect -> option exn.

Inductive outcome :=
| Returned
| Raised (e : exn).

(** How one pass through the [while True] body leaves it. *)
Inductive loop_exit :=
| Break
| Return
| Propagate (e : exn).

Definition formatter_t := Paginator -> page -> rendered.

(** The exception classes the [discord] package exports under the names
    these files use; [Forbidden] and [NotFound] derive from [HTTPException],
    which derives from [DiscordException]. The package has no attribute
    named [Exception]. *)
Definition discord_getattr (name : string) : option (exn -> bool) :=
  if String.eqb name "DiscordException" then
    Some (fun e => match e with Forbidden | NotFound | HTTPException => true | _ => false end)
  else if String.eqb name "HTTPException" then
    Some (fun e => match e with Forbidden | NotFound | HTTPException => true | _ => false end)
  else if String.eqb name "Forbidden" then
    Some (fun e => match e with Forbidden => true | _ => false end)
  else if String.eqb name "NotFound" then
    Some (fun e => match e with NotFound => true | _ => false end)
  else None.

(** Lines 118-124: the page the reaction asks for. *)
Definition turn (e : emoji) (self : Paginator) (i : Z) : option num :=
  match e with
  | FirstPage => Some (Int 0)
  | PreviousPage => Some (Int (i - 1))
  | StopSquare => None
  | NextPage => Some (Int (i + 1))
  | LastPage => Some (max_pages self)
  end.

(** Lines 129-132, for a candidate [c] that is not [None]. *)
Definition clamp (self : Paginator) (c : num) : Paginator * option exn :=
  match ge c (max_pages self) with
  | Raise e => (self, Some e)
  | Ok true =>
      match sub_int (max_pages self) 1 with
      | Raise e => (self, Some e)
      | Ok m => (set_current_page (Some m) self, None)
      end
  | Ok false =>
      match lt c (Int 0) with
      | Raise e => (self, Some e)
      | Ok true => (set_current_page (Some (Int 0)) self, None)
      | Ok false => (self, None)
      end
  end.

(** Lines 117-132: one navigation step on the reaction [e], from page [i]. *)
Definition navigate (e : emoji) (self : Paginator) (i : Z)
  : Paginator * option loop_exit :=
  let self := set_current_page (turn e self i) self in
  match current_page self with
  | None => (self, Some Break)
  | Some c =>
      match clamp self c with
      | (self, Some x) => (self, Some (Propagate x))
      | (self, None) => (self, None)
      end
  end.

(** Lines 82-132: the [while True] loop. [events] lists the symbols of the
    reactions that arrive while the session waits, each from the invoking
    user on this message; when none is left the wait times out. [bound]
    tells whether the local [valid_emojis] was assigned: the [check] closure
    reads it, so with it unassigned a reaction event makes the wait end in
    [NameError]. [last_payload] is a local that the body never assigns. At
    the top of the body [current_page] is an integer: [start] sets it to [0]
    and [clamp] leaves an integer or raises (see [clamp_leaves_int]), so the
    last branch is never taken. *)
Fixpoint loop (formatter : formatter_t) (world : platform) (bound : bool)
         (last_payload : option (gmap string pyobj)) (events : list emoji)
         (self : Paginator) (done : list effect)
  : Paginator * list effect * loop_exit :=
  match current_page self with
  | Some (Int i) =>
      match get_page self i with
      | (self, Raise x) => (self, done, Propagate x)
      | (self, Ok items) =>
          let payload := normalize (formatter self items) in
          let edit :=
            if payload_ne payload last_payload
            then Some (MessageEdit payload) else None in
          let failed :=
            match edit with Some op => world done op | None => None end in
          let done :=
            match edit with Some op => done ++ [op] | None => done end in
          match failed with
          | Some x => (self, done, Propagate x)
          | None =>
              if eq_int (max_pages self) 1 then (self, done, Return)
              else
                match events with
                | [] => (self, done, Break)
                | e :: events =>
                    if negb bound then (self, done, Propagate NameError)
                    else
                      match navigate e self i with
                      | (self, Some x) => (self, done, x)
                      | (self, None) =>
                          loop formatter world bound last_payload events self done
                      end
                end
          end
      end
  | _ => (self, done, Propagate TypeError)
  end.

(** Lines 134-138: the handler [except discord.Exception] is only looked at
    when [clear_reactions] raised, and looking it up is itself an attribute
    access on the [discord] package. *)
Definition cleanup (world : platform) (done : list effect)
  : list effect * outcome :=
  match world done ClearReactions with
  | None => (done ++ [ClearReactions], Returned)
  | Some x =>
      match discord_getattr "Exception" with
      | None => (done ++ [ClearReactions], Raised AttributeError)
      | Some caught =>
          (done ++ [ClearReactions], if caught x then Returned else Raised x)
      end
  end.

Definition no_data : string := "There's no data to be shown.".
Definition menu_loading : string := "Menu loading...".

(** [start] (lines 61-138). *)
Definition start (formatter : formatter_t) (world : platform)
           (events : list emoji) (self : Paginator)
  : Paginator * list effect * outcome :=
  let self := set_current_page (Some (Int 0)) self in
  if eq_int (max_pages self) 0 then
    (self, [CtxSend no_data],
     match world [] (CtxSend no_data) with
     | None => Returned
     | Some x => Raised x
     end)
  else
    let done := [CtxSend menu_loading] in
    match world [] (CtxSend menu_loading) with
    | Some x => (self, done, Raised x)
    | None =>
        match gt (max_pages self) (Int 1) with
        | Raise x => (self, done, Raised x)
        | Ok more =>
            let done :=
              if more then done ++ map AddReactionTask valid_emojis else done in
            match loop formatter world more None events self done with
            | (self, done, Propagate x) => (self, done, Raised x)
            | (self, done, Return) => (self, done, Returned)
            | (self, done, Break) =>
                let (done, r) := cleanup world done in (self, done, r)
            end
        end
    end.

(** A run of [get_page] calls, one after the other, results dropped. *)
Definition get_pages (self : Paginator) (ns : list Z) : Paginator :=
  foldl (fun p n => fst (get_page p n)) self ns.

(** The half-open segment [[lo, hi)] of a list, for [0 <= lo]. *)
Definition segment (l : list A) (lo hi : Z) : list A :=
  take (Z.to_nat (hi - lo)) (drop (Z.to_nat lo) l).

(** How many edits of the message a trace holds. *)
Definition is_edit (op : effect) : bool :=
  match op with MessageEdit _ => true | _ => false end.
Definition edits (done : list effect) : nat :=
  length (List.filter is_edit done).

(** *** The navigation steps of a session *)

(** A navigation step: the paginator as it is when the reaction [e] is
    taken up (lines 117-132), and the page [i] on display. *)
Record step := Step {
  step_self : Paginator;
  step_emoji : emoji;
  step_page : Z;
}.

(** [loop] again, keeping next to its result the navigation steps it goes
    through, in order: one for every call of [navigate]. *)
Fixpoint loop_steps (formatter : formatter_t) (world : platform) (bound : bool)
         (last_payload : option (gmap string pyobj)) (events : list emoji)
         (self : Paginator) (done : list effect)
  : (Paginator * list effect * loop_exit) * list step :=
  match current_page self with
  | Some (Int i) =>
      match get_page self i with
      | (self, Raise x) => ((self, done, Propagate x), [])
      | (self, Ok items) =>
          let payload := normalize (formatter self items) in
          let edit :=
            if payload_ne payload last_payload
            then Some (MessageEdit payload) else None in
          let failed :=
            match edit with Some op => world done op | None => None end in
          let done :=
            match edit with Some op => done ++ [op] | None => done end in
          match failed with
          | Some x => ((self, done, Propagate x), [])
          | None =>
              if eq_int (max_pages self) 1 then ((self, done, Return), [])
              else
                match events with
                | [] => ((self, done, Break), [])
                | e :: events =>
                    if negb bound then ((self, done, Propagate NameError), [])
                    else
                      match navigate e self i with
                      | (self', Some x) => ((self', done, x), [Step self e i])
                      | (self', None) =>
                          let (r, steps) :=
                            loop_steps formatter world bound last_payload events self' done in
                          (r, Step self e i :: steps)
                      end
                end
          end
      end
  | _ => ((self, done, Propagate TypeError), [])
  end.

(** [start] again, with the navigation steps of its loop. *)
Definition start_steps (formatter : formatter_t) (world : platform)
           (events : list emoji) (self : Paginator)
  : (Paginator * list effect * outcome) * list step :=
  let self := set_current_page (Some (Int 0)) self in
  if eq_int (max_pages self) 0 then
    ((self, [CtxSend no_data],
      match world [] (CtxSend no_data) with
      | None => Returned
      | Some x => Raised x
      end), [])
  else
    let done := [CtxSend menu_loading] in
    match world [] (CtxSend menu_loading) with
    | Some x => ((self, done, Raised x), [])
    | None =>
        match gt (max_pages self) (Int 1) with
        | Raise x => ((self, done, Raised x), [])
        | Ok more =>
            let done :=
              if more then done ++ map AddReactionTask valid_emojis else done in
            match loop_steps formatter world more None events self done with
            | ((self, done, Propagate x), steps) => ((self, done, Raised x), steps)
            | ((self, done, Return), steps) => ((self, done, Returned), steps)
            | ((self, done, Break), steps) =>
                let (done, r) := cleanup world done in ((self, done, r), steps)
            end
        end
    end.

(** The navigation steps of the session [start formatter world events self]. *)
Definition navigation_steps (formatter : formatter_t) (world : platform)
           (events : list emoji) (self : Paginator) : list step :=
  (start_steps formatter world events self).2.


(** A run of [get_page] calls, one after the other, results kept. *)
Fixpoint browse (self : Paginator) (ns : list Z) : list (result page) :=
  match ns with
  | [] => []
  | n :: ns => let (self, r) := get_page self n in r :: browse self ns
  end.

(** What holds of a paginator over the sequence [items] with page size [P]
    and page count [m] at every moment: the source and the page size never
    change, and every cached page holds the slice of its number. *)
Definition sequence_inv (items : list A) (P : Z) (m : num) (p : Paginator) : Prop :=
  data p = Sequence items ∧ per_page p = P ∧ max_pages p = m ∧
  ∀ k v, _page_cache p !! k = Some v ->
         page_items v = slice items (k * P) ((k + 1) * P).

End WithItems.

Arguments page : clear implicits.
Arguments generator : clear implicits.
Arguments source : clear implicits.
Arguments Paginator : clear implicits.
Arguments formatter_t : clear implicits.
Arguments step : clear implicits.

End Paginator.

(** ** error_handler.py *)

Module ErrorHandler.

(** The exception classes the file names. [MissingRequiredArgumentString]
    and [InvokedMetaCommand] are [utils.errors] classes, [ClientOSError] is
    aiohttp's, the others are discord.py's. *)
Inductive exc_class :=
| MissingRequiredArgumentString
| MissingRequiredArgument
| UnexpectedQuoteError
| InvalidEndOfQuotedStringError
| ExpectedClosingQuoteError
| CommandOnCooldown
| NSFWChannelRequired
| DisabledCommand
| MissingAnyRole
| BotMissingAnyRole
| MissingRole
| BotMissingRole
| MissingPermissions
| BotMissingPermissions
| NoPrivateMessage
| PrivateMessageOnly
| NotOwner
| BadArgument
| BadUnionArgument
| TooManyArguments
| NotFound
| Forbidden
| HTTPException
| ClientOSError
| CommandNotFound
| InvokedMetaCommand.

#[export] Instance exc_class_eq_dec : EqDecision exc_class.
Proof. solve_decision. Defined.

(** The error object handed to the listener: which of the classes above its
    type is or inherits from, [str(error)], and the attributes the
    formatters read ([None] when the object has no such attribute).
    [retry_after_spaced] stands for
    [utils.TimeValue(error.retry_after).clean_spaced]. *)
Record error := Error {
  classes : list exc_class;
  err_str : string;
  param : option string;
  param_name : option string;
  retry_after_spaced : option string;
  missing_roles : option (list string);
  missing_role : option string;
  missing_perms : option (list string);
  status : option string;
}.

Record Context := Ctx {
  clean_prefix : string;
  command_name : string;
  author_id : Z;
  original_author_id : option Z;
  guild_id : option Z;
  channel_id : Z;
  message_content : string;
}.

Record Config := Cfg {
  dm_uncaught_errors : bool;
  owners : option (list Z);
  event_webhook_url : option string;
}.

(** The bot: [cached_users] are the ids for which [bot.get_user] finds a
    user in the cache (for the others it returns [None]). *)
Record Bot := Build_Bot {
  owner_ids : list Z;
  config : option Config;
  user_name : string;
  cached_users : list Z;
}.

(** What a formatter of the table returns. *)
Inductive output :=
| ONone
| OStr (s : string)
| OPair (channel_text owner_text : string).

Definition formatter_t := Context -> error -> result output.

Definition nl : string := String (Ascii.ascii_of_nat 10) EmptyString.

(** [isinstance(error, types)] for a class or a tuple of classes. *)
Definition isinstance (e : error) (types : list exc_class) : bool :=
  existsb (fun t => bool_decide (t ∈ classes e)) types.

(** Reading an attribute that may be missing. *)
Definition attr {T} (a : option T) : result T :=
  match a with
  | Some v => Ok v
  | None => Raise AttributeError
  end.

Definition backticked (l : list string) : string :=
  String.concat ", " (map (fun i => "`" +:+ i +:+ "`") l).

Definition see_help (ctx : Context) : string :=
  " - see `" +:+ clean_prefix ctx +:+ "help " +:+ command_name ctx +:+ "`.".

(** [COMMAND_ERROR_RESPONSES] (lines 14-116), in the order of the source. *)
Definition COMMAND_ERROR_RESPONSES : list (list exc_class * formatter_t) :=
  [ ([MissingRequiredArgumentString],
     fun ctx error => bind (attr (param error)) (fun p =>
       Ok (OStr ("You're missing the `" +:+ p +:+
                 "` argument, which is required for this command" +:+ see_help ctx))));
    ([MissingRequiredArgument],
     fun ctx error => bind (attr (param_name error)) (fun p =>
       Ok (OStr ("You're missing the `" +:+ p +:+
                 "` argument, which is required for this command" +:+ see_help ctx))));
    ([UnexpectedQuoteError; InvalidEndOfQuotedStringError; ExpectedClosingQuoteError],
     fun ctx error => Ok (OStr "The quotes in your message have been done incorrectly."));
    ([CommandOnCooldown],
     fun ctx error => bind (attr (retry_after_spaced error)) (fun t =>
       Ok (OStr ("You can't use this command again for another " +:+ t +:+ "."))));
    ([NSFWChannelRequired],
     fun ctx error => Ok (OStr "This command can't be run in a non-NSFW channel."));
    ([DisabledCommand],
     fun ctx error => Ok (OStr "This command has been disabled."));
    ([MissingAnyRole],
     fun ctx error => bind (attr (missing_roles error)) (fun r =>
       Ok (OStr ("You need to have one of the " +:+ backticked r +:+
                 " roles to be able to run this command."))));
    ([BotMissingAnyRole],
     fun ctx error => bind (attr (missing_roles error)) (fun r =>
       Ok (OStr ("I need to have one of the " +:+ backticked r +:+
                 " roles for you to be able to run this command."))));
    ([MissingRole],
     fun ctx error => bind (attr (missing_role error)) (fun r =>
       Ok (OStr ("You need to have the `" +:+ r +:+
                 "` role to be able to run this command."))));
    ([BotMissingRole],
     fun ctx error => bind (attr (missing_role error)) (fun r =>
       Ok (OStr ("I need to have the `" +:+ r +:+
                 "` role for you to be able to run this command."))));
    ([MissingPermissions],
     fun ctx error => bind (attr (missing_perms error)) (fun l =>
       match l with
       | [] => Raise IndexError
       | p :: _ => Ok (OStr ("You need the `" +:+ p +:+ "` permission to run this command."))
       end));
    ([BotMissingPermissions],
     fun ctx error => bind (attr (missing_perms error)) (fun l =>
       match l with
       | [] => Raise IndexError
       | p :: _ => Ok (OStr ("I need the `" +:+ p +:+
                             "` permission for me to be able to run this command."))
       end));
    ([NoPrivateMessage],
     fun ctx error => Ok (OStr "This command can't be run in DMs."));
    ([PrivateMessageOnly],
     fun ctx error => Ok (OStr "This command can only be run in DMs."));
    ([NotOwner],
     fun ctx error => Ok (OStr "You need to be registered as an owner to run this command."));
    ([BadArgument; BadUnionArgument],
     fun ctx error => Ok (OStr (err_str error)));
    ([TooManyArguments],
     fun ctx error => Ok (OStr ("You gave too many arguments to this command" +:+ see_help ctx)));
    ([NotFound],
     fun ctx error => Ok ONone);
    ([Forbidden],
     fun ctx error =>
       Ok (OPair "Discord is saying I'm unable to perform that action."
                 "Discord is saying I'm unable to perform that action - I probably don't have permission to talk in that channel."));
    ([HTTPException; ClientOSError],
     fun ctx error => bind (attr (status error)) (fun s =>
       Ok (OStr ("Discord messed up there somewhere - do you mind trying again? I received a "
                 +:+ s +:+ " error."))))
  ].

(** The operations on the chat platform, in the order they are issued. *)
Inductive effect :=
| CtxSend (text : string)
| AuthorSend (text : string)
| Reinvoke
| FetchUser (owner_id : Z)
| OwnerSend (owner_id : Z) (text : string)
| WebhookSend (url text username : string).

(** The platform: given what was issued so far and the operation awaited
    now, whether that operation raises. *)
Definition platform := list effect -> effect -> option exn.

(** How the listener ends: it returns, an exception of some call leaves
    it, or it gets to [raise error]. *)
Inductive outcome :=
| Returned
| Raised (e : exn)
| Reraised.

(** [send_to_ctx_or_author] (lines 118-133); [author_text or text] takes
    [text] when [author_text] is [None] or empty. *)
Definition send_to_ctx_or_author (world : platform) (done : list effect)
           (text : string) (author_text : option string)
  : list effect * outcome :=
  match world done (CtxSend text) with
  | None => (done ++ [CtxSend text], Returned)
  | Some Py.Forbidden =>
      let done := done ++ [CtxSend text] in
      let t := match author_text with
               | Some a => if String.eqb a "" then text else a
               | None => text
               end in
      match world done (AuthorSend t) with
      | None | Some Py.Forbidden => (done ++ [AuthorSend t], Returned)
      | Some x => (done ++ [AuthorSend t], Raised x)
      end
  | Some Py.NotFound => (done ++ [CtxSend text], Returned)
  | Some x => (done ++ [CtxSend text], Raised x)
  end.

(** Lines 161-165: the first pair of the table whose types the error is an
    instance of gives the output; with no such pair [output] stays [None]. *)
Fixpoint respond (table : list (list exc_class * formatter_t))
         (ctx : Context) (e : error) : result output :=
  match table with
  | [] => Ok ONone
  | (error_types, function) :: table =>
      if isinstance e error_types then function ctx e
      else respond table ctx e
  end.

(** Line 190, [self.bot.get_user(owner_id) or await self.bot.fetch_user(owner_id)]:
    the fetch is only made for a user the cache does not hold. *)
Definition fetch_if_missing (bot : Bot) (owner_id : Z) : option effect :=
  if bool_decide (owner_id ∈ cached_users bot) then None
  else Some (FetchUser owner_id).

(** Lines 189-192: for every configured owner, the user is looked up (and
    fetched when the cache does not hold it), then written to. Either of the
    two awaits can raise; what the fetch raises leaves before anything is
    sent to that owner. *)
Fixpoint dm_owners (bot : Bot) (world : platform) (done : list effect)
         (ids : list Z) (text : string) : list effect * option exn :=
  match ids with
  | [] => (done, None)
  | owner_id :: ids =>
      let fetch := fetch_if_missing bot owner_id in
      let failed := match fetch with Some op => world done op | None => None end in
      let done := match fetch with Some op => done ++ [op] | None => done end in
      match failed with
      | Some x => (done, Some x)
      | None =>
          match world done (OwnerSend owner_id text) with
          | Some x => (done ++ [OwnerSend owner_id text], Some x)
          | None => dm_owners bot world (done ++ [OwnerSend owner_id text]) ids text
          end
      end
  end.

(** [discord.Webhook.from_url] (line 196) looks in the URL for
    [discord(?:app)?.com/api/webhooks/(?P<id>[0-9]{17,20})/(?P<token>[A-Za-z0-9\.\-\_]{60,68})]
    with [re.search], the pattern of discord.py 1.7, and raises
    [InvalidArgument] when it is not there. The functions below are that
    search: the dot of the pattern stands for any character but a newline,
    the digits after [webhooks/] must be a run of 17 to 20 ended by a
    slash (character 47), and at least 60 token characters must follow. *)
Fixpoint strip_prefix (p s : string) : option string :=
  match p with
  | EmptyString => Some s
  | String a p =>
      match s with
      | String b s => if Ascii.eqb a b then strip_prefix p s else None
      | EmptyString => None
      end
  end.

(** The length of the longest initial run of characters of [s] that satisfy
    [f], and what follows it. *)
Fixpoint leading (f : Ascii.ascii -> bool) (s : string) : nat * string :=
  match s with
  | String c s' => if f c then let (n, r) := leading f s' in (S n, r) else (0%nat, s)
  | EmptyString => (0%nat, s)
  end.

Definition between (lo hi : nat) (c : Ascii.ascii) : bool :=
  let n := Ascii.nat_of_ascii c in (lo <=? n)%nat && (n <=? hi)%nat.

Definition is_digit (c : Ascii.ascii) : bool := between 48 57 c.

(** [A-Z], [a-z], [0-9], and the characters [.] (46), [-] (45), [_] (95). *)
Definition is_token_char (c : Ascii.ascii) : bool :=
  between 65 90 c || between 97 122 c || is_digit c
  || between 46 46 c || between 45 45 c || between 95 95 c.

Definition id_and_token (s : string) : bool :=
  let (n, r) := leading is_digit s in
  (17 <=? n)%nat && (n <=? 20)%nat &&
  match r with
  | String c r => between 47 47 c && (60 <=? (leading is_token_char r).1)%nat
  | EmptyString => false
  end.

Definition after_domain_name (s : string) : bool :=
  match s with
  | String c s =>
      negb (Ascii.eqb c (Ascii.ascii_of_nat 10)) &&
      match strip_prefix "com/api/webhooks/" s with
      | Some r => id_and_token r
      | None => false
      end
  | EmptyString => false
  end.

Definition webhook_pattern_here (s : string) : bool :=
  match strip_prefix "discord" s with
  | Some r =>
      match strip_prefix "app" r with
      | Some r' => after_domain_name r' || after_domain_name r
      | None => after_domain_name r
      end
  | None => false
  end.

Fixpoint webhook_pattern_found (url : string) : bool :=
  webhook_pattern_here url ||
  match url with
  | String _ url => webhook_pattern_found url
  | EmptyString => false
  end.

Definition from_url (url : string) : option exn :=
  if webhook_pattern_found url then None
  else Some (OtherException "InvalidArgument").

(** Lines 173-208: the raw error to the channel, then the owners and the
    webhook, then the error is raised again. *)
Definition escalate (bot : Bot) (world : platform) (ctx : Context)
           (e : error) (done : list effect) : list effect * outcome :=
  let raw := "```py" +:+ nl +:+ err_str e +:+ "```" in
  let sent := world done (CtxSend raw) in
  let done := done ++ [CtxSend raw] in
  match sent with
  | None | Some Py.Forbidden | Some Py.NotFound =>
      match guild_id ctx with
      | None => (done, Raised AttributeError)
      | Some guild =>
          let error_text :=
            "Error `" +:+ err_str e +:+ "` encountered." +:+ nl +:+
            "Guild `" +:+ pretty guild +:+ "`, channel `" +:+ pretty (channel_id ctx) +:+
            "`, user `" +:+ pretty (author_id ctx) +:+ "`" +:+ nl +:+
            "```" +:+ nl +:+ message_content ctx +:+ nl +:+ "```" in
          let dm :=
            match config bot with
            | Some c => dm_uncaught_errors c
            | None => false
            end in
          let (done, failed) :=
            if dm then
              match config bot with
              | Some (Cfg _ (Some ids) _) => dm_owners bot world done ids error_text
              | _ => (done, Some (OtherException "KeyError"))
              end
            else (done, None) in
          match failed with
          | Some x => (done, Raised x)
          | None =>
              match config bot with
              | None => (done, Raised AttributeError)
              | Some c =>
                  match event_webhook_url c with
                  | Some url =>
                      if String.eqb url "" then (done, Reraised)
                      else
                        match from_url url with
                        | Some x => (done, Raised x)
                        | None =>
                            let op := WebhookSend url error_text (user_name bot +:+ " - Error") in
                            match world done op with
                            | Some x => (done ++ [op], Raised x)
                            | None => (done ++ [op], Reraised)
                            end
                        end
                  | None => (done, Reraised)
                  end
              end
          end
      end
  | Some x => (done, Raised x)
  end.

Definition ignored_errors : list exc_class :=
  [CommandNotFound; InvokedMetaCommand].

Definition owner_reinvoke_errors : list exc_class :=
  [MissingRole; MissingAnyRole; MissingPermissions; CommandOnCooldown; DisabledCommand].

Definition set_original_author_id (v : Z) (ctx : Context) : Context :=
  Ctx (clean_prefix ctx) (command_name ctx) (author_id ctx) (Some v)
      (guild_id ctx) (channel_id ctx) (message_content ctx).

(** Lines 166-171 for an output that is true: [_, _ = output] succeeds on a
    pair and on a string of exactly two characters, and on any other string
    it raises [ValueError], which [except TypeError] does not catch. *)
Definition send_output (world : platform) (done : list effect) (o : output)
  : list effect * outcome :=
  match o with
  | OPair a b => send_to_ctx_or_author world done a (Some b)
  | OStr (String a (String b EmptyString)) =>
      send_to_ctx_or_author world done (String a EmptyString)
                            (Some (String b EmptyString))
  | _ => (done, Raised ValueError)
  end.

(** The truth value of an output: [None] and the empty string are false. *)
Definition truthy (o : output) : bool :=
  match o with
  | ONone => false
  | OStr s => negb (String.eqb s "")
  | OPair _ _ => true
  end.

(** [on_command_error] (lines 136-208) over a given dispatch table. *)
Definition on_command_error_with (table : list (list exc_class * formatter_t))
           (bot : Bot) (world : platform) (ctx : Context) (e : error)
  : Context * list effect * outcome :=
  if isinstance e ignored_errors then (ctx, [], Returned)
  else
    let original := default (author_id ctx) (original_author_id ctx) in
    let ctx := set_original_author_id original ctx in
    if bool_decide (original ∈ owner_ids bot) && isinstance e owner_reinvoke_errors
    then
      (ctx, [Reinvoke],
       match world [] Reinvoke with
       | None => Returned
       | Some x => Raised x
       end)
    else
      match respond table ctx e with
      | Raise x => (ctx, [], Raised x)
      | Ok o =>
          if truthy o then
            let (done, r) := send_output world [] o in (ctx, done, r)
          else
            let (done, r) := escalate bot world ctx e [] in (ctx, done, r)
      end.

Definition on_command_error := on_command_error_with COMMAND_ERROR_RESPONSES.

(** The two texts of lines 175 and 185 on their own: the raw error as it is
    sent to the channel, and the report for the owners and the webhook, for
    a command run in the guild [guild]. *)
Definition raw_text (e : error) : string :=
  "```py" +:+ nl +:+ err_str e +:+ "```".

Definition error_text (ctx : Context) (e : error) (guild : Z) : string :=
  "Error `" +:+ err_str e +:+ "` encountered." +:+ nl +:+
  "Guild `" +:+ pretty guild +:+ "`, channel `" +:+ pretty (channel_id ctx) +:+
  "`, user `" +:+ pretty (author_id ctx) +:+ "`" +:+ nl +:+
  "```" +:+ nl +:+ message_content ctx +:+ nl +:+ "```".

(** What lines 190-192 issue for one owner when nothing fails: the fetch,
    if the cache does not hold the user, then the message. *)
Definition fetch_ops (bot : Bot) (owner_id : Z) : list effect :=
  match fetch_if_missing bot owner_id with
  | Some op => [op]
  | None => []
  end.

Definition owner_ops (bot : Bot) (text : string) (owner_id : Z) : list effect :=
  fetch_ops bot owner_id ++ [OwnerSend owner_id text].

(** [getattr(ctx, "original_author_id", ctx.author.id)] *)
Definition original_author (ctx : Context) : Z :=
  default (author_id ctx) (original_author_id ctx).

End ErrorHandler.

(** ** Concrete inputs used below *)

Module Scenario.

Import Paginator.

(** [range(1, 26)] and a two-item list of letters. *)
Definition one_to_25 : list Z := seqZ 1 25.
Definition letters : list string := ["a"; "b"].

(** A generator that yields [["a"]], then [["b"]], and is then exhausted;
    and one that is exhausted from the start. *)
Definition two_batches : generator string :=
  Gen (fun k => match k with
                | 0%nat => Some ["a"]
                | 1%nat => Some ["b"]
                | _ => None
                end) 0.
Definition no_batches : generator string := Gen (fun _ => None) 0.

(** A freshly constructed paginator over [d], as [__init__] leaves a
    generator-like source. *)
Definition fresh (d : source string) : Paginator string :=
  Build d 10 None ∅ QMark 0%nat [].

(** The paginators [__init__] builds over [one_to_25] with ten items a page,
    over [letters] with one item a page, and over the empty list. *)
Definition numbers_paginator : Paginator Z :=
  Build (Sequence one_to_25) 10 None ∅ (Int 3) 0%nat [].
Definition letters_paginator : Paginator string :=
  Build (Sequence letters) 1 None ∅ (Int 2) 0%nat [].
Definition empty_paginator : Paginator string :=
  Build (Sequence []) 10 None ∅ (Int 0) 0%nat [].

(** [letters_paginator] with page [0] on display and in the cache. *)
Definition letters_on_page_0 : Paginator string :=
  Build (Sequence letters) 1 (Some (Int 0)) {[0 := Page 0 ["a"]]} (Int 2) 1%nat
        [TookSlice 0 1].

(** The keyword dictionary [same_text] leads to. *)
Definition menu_payload : gmap string pyobj :=
  {["content" := PStr "menu"; "embed" := PNone]}.

(** A formatter whose output does not depend on the page. *)
Definition same_text : formatter_t string := fun _ _ => RStr "menu".

(** A platform on which nothing fails, and one on which only clearing the
    reactions is forbidden. *)
Definition quiet : platform := fun _ _ => None.
Definition no_clearing : platform :=
  fun _ op => match op with ClearReactions => Some Py.Forbidden | _ => None end.

(** The paginator [__init__] builds over [letters] with ten items a page,
    and a platform on which every edit fails. *)
Definition letters_on_one_page : Paginator string :=
  Build (Sequence letters) 10 None ∅ (Int 1) 0%nat [].
Definition no_editing : platform :=
  fun _ op => match op with MessageEdit _ => Some Py.HTTPException | _ => None end.

End Scenario.

Module ErrorScenario.

Import ErrorHandler.

(** A [discord.NotFound] (a subclass of [discord.HTTPException]), a
    [discord.Forbidden], and a [commands.CommandNotFound]. *)
Definition not_found : error :=
  Error [NotFound; HTTPException] "404 Not Found (error code: 10008): Unknown Message"
        None None None None None None (Some "404").
Definition forbidden : error :=
  Error [Forbidden; HTTPException] "403 Forbidden (error code: 50013): Missing Permissions"
        None None None None None None (Some "403").
Definition unknown_command : error :=
  Error [CommandNotFound] "Command frobnicate is not found"
        None None None None None None None.

(** A command [!ping] run in guild 100, channel 200, by user 7, who is not
    an owner of the bot. *)
Definition somebody : Context := Ctx "!" "ping" 7 None (Some 100) 200 "!ping".

(** A bot with one owner, whom its user cache holds, told to report
    uncaught errors to that owner and to a webhook; [hook] is a webhook URL
    of the shape the library asks for (an id of 18 digits and a token of 68
    characters). *)
Definition hook : string :=
  "https://discordapp.com/api/webhooks/123456789012345678/abcdefghijklmnopqrstuvwxyzABCDEFGHIJKLMNOPQRSTUVWXYZ0123456789-_abcd".
Definition a_bot : Bot :=
  Build_Bot [1] (Some (Cfg true (Some [1]) (Some hook))) "VoxelBot" [1].

(** A platform on which nothing fails. *)
Definition quiet : platform := fun _ _ => None.

(** A [commands.DisabledCommand], a [commands.CommandOnCooldown], and an
    error of a type the file does not name. *)
Definition disabled : error :=
  Error [DisabledCommand] "ping command is disabled"
        None None None None None None None.
Definition on_cooldown : error :=
  Error [CommandOnCooldown] "You are on cooldown. Try again in 5.00s"
        None None (Some "5 seconds") None None None None.
Definition unknown_error : error :=
  Error [] "Command raised an exception: KeyError: 'x'"
        None None None None None None None.

(** The owner of [a_bot] running the same command, and the same command
    run in a direct message. *)
Definition the_owner : Context := Ctx "!" "ping" 1 None (Some 100) 200 "!ping".
Definition in_dm : Context := Ctx "!" "ping" 7 None None 200 "!ping".

(** A bot with two owners to report to, the second of whom its user cache
    does not hold. *)
Definition two_owner_bot : Bot :=
  Build_Bot [1; 2] (Some (Cfg true (Some [1; 2]) (Some hook))) "VoxelBot" [1].

(** A bot whose webhook URL is not one, and a platform on which no user
    can be fetched. *)
Definition bad_hook_bot : Bot :=
  Build_Bot [1] (Some (Cfg true (Some [1]) (Some "not a url"))) "VoxelBot" [1].
Definition no_fetching : platform :=
  fun _ op => match op with FetchUser _ => Some Py.NotFound | _ => None end.

(** A platform on which the channel is forbidden and everything else
    works. *)
Definition channel_forbidden : platform :=
  fun _ op => match op with CtxSend _ => Some Py.Forbidden | _ => None end.

(** The report the owner and the webhook get about [not_found] raised in
    [somebody]'s command. *)
Definition not_found_report : string :=
  "Error `404 Not Found (error code: 10008): Unknown Message` encountered." +:+ nl +:+
  "Guild `100`, channel `200`, user `7`" +:+ nl +:+
  "```" +:+ nl +:+ "!ping" +:+ nl +:+ "```".

End ErrorScenario.

(** ** Properties of the paginator *)

Module PaginatorFacts.

Import Paginator.

Section Pages.

Context {A : Type}.
Implicit Types (self p : Paginator A) (items : list A) (v : page A).

(** *** Python slices of a list *)

Lemma slice_forward items lo hi :
  0 <= lo -> 0 <= hi ->
  slice items lo hi = segment items lo (Z.min hi (Z.of_nat (length items))).
Proof.
  intros Hlo Hhi. unfold slice, segment, slice_bound.
  destruct (Z.ltb_spec lo 0) as [?|_]; [lia|].
  destruct (Z.ltb_spec hi 0) as [?|_]; [lia|].
  destruct (Z_le_gt_dec lo (Z.of_nat (length items))) as [Hin|Hout].
  - by rewrite (Z.min_l lo) by lia.
  - rewrite (Z.min_r lo) by lia.
    replace (Z.to_nat (Z.min hi (Z.of_nat (length items)) - lo)) with 0%nat by lia.
    replace (Z.to_nat (Z.min hi (Z.of_nat (length items)) - Z.of_nat (length items)))
      with 0%nat by lia.
    by rewrite !take_0.
Qed.

Lemma slice_past_end items lo hi :
  Z.of_nat (length items) <= lo -> lo <= hi -> slice items lo hi = [].
Proof.
  intros Hlo Hhi. unfold slice, slice_bound.
  destruct (Z.ltb_spec lo 0) as [?|_]; [lia|].
  destruct (Z.ltb_spec hi 0) as [?|_]; [lia|].
  replace (Z.to_nat (Z.min hi (Z.of_nat (length items)) - Z.min lo (Z.of_nat (length items))))
    with 0%nat by lia.
  apply take_0.
Qed.

(** *** The page count of [__init__] *)

Lemma divmod_ceiling (L P : Z) :
  0 <= L -> 0 < P ->
  (if negb (L `mod` P =? 0) then L `div` P + 1 else L `div` P)
  = (L + P - 1) `div` P.
Proof.
  intros HL HP.
  pose proof (Z.div_mod L P ltac:(lia)) as Hdm.
  pose proof (Z.mod_pos_bound L P HP) as Hr.
  destruct (Z.eqb_spec (L `mod` P) 0) as [Hz|Hnz]; simpl.
  - apply (Z.div_unique_pos _ _ _ (P - 1)); lia.
  - apply (Z.div_unique_pos _ _ _ (L `mod` P - 1)); lia.
Qed.

Lemma ceiling_covers (L P n : Z) :
  0 < P -> (L + P - 1) `div` P <= n -> L <= n * P.
Proof.
  intros HP Hn.
  pose proof (Z.div_mod (L + P - 1) P ltac:(lia)) as Hdm.
  pose proof (Z.mod_pos_bound (L + P - 1) P HP) as Hr.
  nia.
Qed.

Lemma init_sequence items P :
  P ≠ 0 ->
  __init__ (Sequence items) P
  = Ok (Build (Sequence items) P None ∅
              (Int (let L := Z.of_nat (length items) in
                    if negb (L `mod` P =? 0) then L `div` P + 1 else L `div` P))
              0%nat []).
Proof.
  intros HP. unfold __init__. simpl.
  destruct (Z.eqb_spec P 0) as [?|_]; [done|]. reflexivity.
Qed.

(** *** What [get_page] preserves on a sequence *)

Lemma get_page_sequence items P m p n :
  sequence_inv items P m p ->
  sequence_inv items P m (get_page p n).1 ∧
  ∃ v, (get_page p n).2 = Ok v ∧
       page_items v = slice items (n * P) ((n + 1) * P).
Proof.
  intros (Hd & Hp & Hm & Hc). unfold get_page.
  destruct (_page_cache p !! n) as [v|] eqn:Hn; simpl.
  - split; [by repeat split|]. exists v. split; [done|]. by apply Hc.
  - unfold get_page_try, getitem_slice. rewrite Hd, Hp. simpl.
    split.
    + repeat split; try done. simpl. intros k v.
      rewrite lookup_insert. case_decide as Hk.
      * intros [= <-]. by subst k.
      * apply Hc.
    + eexists. split; [reflexivity|]. reflexivity.
Qed.

Lemma get_pages_sequence items P m p ns :
  sequence_inv items P m p -> sequence_inv items P m (get_pages p ns).
Proof.
  revert p. induction ns as [|n ns IH]; intros p Hp; [done|].
  simpl. apply IH. by apply get_page_sequence.
Qed.

(** *** The cache only grows *)

Lemma get_page_try_cache self n :
  _page_cache (get_page_try self n).1 = _page_cache self.
Proof.
  unfold get_page_try, next, __anext__, getitem_slice.
  destruct (data self) as [l|g|g|g|g]; simpl; try done.
Qed.

Lemma get_page_keeps_entry self n m v :
  _page_cache self !! n = Some v ->
  _page_cache (get_page self m).1 !! n = Some v.
Proof.
  intros Hn. unfold get_page.
  destruct (_page_cache self !! m) as [w|] eqn:Hm; [done|].
  pose proof (get_page_try_cache self m) as Hc.
  destruct (get_page_try self m) as [self' [w|e]]; simpl in *.
  - rewrite Hc. rewrite lookup_insert_ne; [done|]. intros ->. congruence.
  - destruct (is_stop e); simpl; by rewrite Hc.
Qed.

Lemma get_pages_keeps_entry self n ns v :
  _page_cache self !! n = Some v ->
  _page_cache (get_pages self ns) !! n = Some v.
Proof.
  revert self. induction ns as [|m ns IH]; intros self Hn; [done|].
  simpl. apply IH. by apply get_page_keeps_entry.
Qed.

(** *** Pages of a finite sequence *)

(** C5 (as amended). Over a finite sequence of length [L] with page size
    [P > 0], construction succeeds and sets [max_pages] to the ceiling of
    [L / P]; after any run of earlier [get_page] calls, [get_page n] returns
    a page for every integer [n] (it never raises); for a valid [n] that
    page is exactly the segment from [n * P] to [min ((n + 1) * P) L]; and
    for every [n] at or past [max_pages] it is empty. Nothing is promised
    for a negative [n] beyond that a page is returned. *)
Theorem sequence_pages items (P : Z) (ns : list Z) (n : Z) :
  0 < P ->
  let L := Z.of_nat (length items) in
  let pages := (L + P - 1) `div` P in
  ∃ p0 v,
    __init__ (Sequence items) P = Ok p0 ∧
    max_pages p0 = Int pages ∧
    (get_page (get_pages p0 ns) n).2 = Ok v ∧
    (0 <= n < pages ->
     page_items v = segment items (n * P) (Z.min ((n + 1) * P) L)) ∧
    (pages <= n -> page_items v = []).
Proof.
  intros HP L pages.
  rewrite init_sequence by lia. eexists. 
  assert (Hinv : sequence_inv items P (Int pages)
                   (Build (Sequence items) P None ∅
                      (Int (if negb (L `mod` P =? 0) then L `div` P + 1 else L `div` P))
                      0%nat [])).
  { repeat split; simpl.
    - f_equal. apply divmod_ceiling; lia.
    - intros k v. by rewrite lookup_empty. }
  apply (get_pages_sequence _ _ _ _ ns) in Hinv.
  destruct (get_page_sequence _ _ _ _ n Hinv) as (_ & v & Hv & Hitems).
  exists v. split; [reflexivity|]. split.
  { simpl. f_equal. apply divmod_ceiling; lia. }
  split; [exact Hv|]. split.
  - intros [Hn _]. rewrite Hitems. apply slice_forward; nia.
  - intros Hn. rewrite Hitems.
    apply ceiling_covers in Hn; [|done].
    apply slice_past_end; fold L; nia.
Qed.

(** C9. Once page [n] is in the cache with the object [v], every later
    [get_page n], after any further [get_page] calls, returns that same
    object [v] and leaves the paginator exactly as it was: no slice is
    taken, no generator is pulled, and no new page object is made. *)
Theorem cached_page_reused self (n : Z) v (ns : list Z) :
  _page_cache self !! n = Some v ->
  let later := get_pages self ns in
  get_page later n = (later, Ok v).
Proof.
  intros Hn later. subst later. unfold get_page.
  by rewrite (get_pages_keeps_entry self n ns v Hn).
Qed.

(** *** Generator-like sources *)

(** On a page that is not cached, an asynchronous generator (or generator
    function) is handed to [next], and a synchronous one is asked for
    [__anext__]: neither call can succeed, nothing is pulled, and the
    paginator is left as it was. *)
Lemma get_page_generated self n :
  _page_cache self !! n = None ->
  (isasyncgenfunction (data self) || isasyncgen (data self) ->
   get_page self n = (self, Raise TypeError)) ∧
  (isgeneratorfunction (data self) || isgenerator (data self) ->
   get_page self n = (self, Raise AttributeError)).
Proof.
  intros Hn. unfold get_page, get_page_try, next, __anext__. rewrite Hn.
  destruct (data self) as [l|g|g|g|g]; simpl; split; intros H; done.
Qed.


(** The end-of-data signal itself is there: [next] on an exhausted
    synchronous generator raises [StopIteration], and [__anext__] on an
    exhausted asynchronous one raises [StopAsyncIteration]. *)
Lemma exhausted_signals self g :
  gen_body g (gen_pos g) = None ->
  (data self = Generator g -> next self = (self, Raise StopIteration)) ∧
  (data self = AsyncGenerator g -> __anext__ self = (self, Raise StopAsyncIteration)).
Proof.
  intros Hg. unfold next, __anext__. split; intros ->; by rewrite Hg.
Qed.

(** *** Navigation *)

(** With a known page count of at least one, a reaction other than the stop
    symbol leaves [current_page] inside [[0, max_pages)]. *)
Lemma navigate_in_range self e (i m : Z) :
  max_pages self = Int m -> 1 <= m ->
  (e = StopSquare ∧ navigate e self i = (set_current_page None self, Some Break)) ∨
  (∃ c, 0 <= c < m ∧
        navigate e self i = (set_current_page (Some (Int c)) self, None)).
Proof.
  intros Hm Hpos. unfold navigate, turn, clamp.
  destruct e; simpl; rewrite ?Hm; simpl.
  - right. exists 0. split; [lia|].
    destruct (Z.leb_spec m 0); [lia|]. simpl. done.
  - right. destruct (Z.leb_spec m (i - 1)); simpl.
    + exists (m - 1). split; [lia|done].
    + destruct (Z.ltb_spec (i - 1) 0); simpl.
      * exists 0. split; [lia|done].
      * exists (i - 1). split; [lia|done].
  - left. done.
  - right. destruct (Z.leb_spec m (i + 1)); simpl.
    + exists (m - 1). split; [lia|done].
    + destruct (Z.ltb_spec (i + 1) 0); simpl.
      * exists 0. split; [lia|done].
      * exists (i + 1). split; [lia|done].
  - right. exists (m - 1). split; [lia|].
    destruct (Z.leb_spec m m); [|lia]. simpl. done.
Qed.

(** While [max_pages] is still ["?"], every reaction but the stop symbol
    ends the step in [TypeError]. *)
Lemma navigate_unknown_raises self e (i : Z) :
  max_pages self = QMark -> e ≠ StopSquare ->
  (navigate e self i).2 = Some (Propagate TypeError).
Proof.
  intros Hm He. unfold navigate, turn, clamp.
  destruct e; simpl; rewrite ?Hm; simpl; done.
Qed.

(** After a step that goes on, [current_page] is an integer. *)
Lemma clamp_leaves_int self c self' :
  current_page self = Some c ->
  clamp self c = (self', None) -> ∃ k, current_page self' = Some (Int k).
Proof.
  unfold clamp. intros Hc.
  destruct c as [|x], (max_pages self) as [|m]; simpl; try done.
  destruct (m <=? x); simpl.
  - intros [= <-]. by eexists.
  - destruct (x <? 0); intros [= <-]; simpl; by eexists.
Qed.

(** A session over a source whose page count is still ["?"] sends the
    placeholder and then fails on [self.max_pages > 1]. *)
Lemma start_unknown_raises (formatter : formatter_t A) world events self :
  max_pages self = QMark ->
  world [] (CtxSend menu_loading) = None ->
  start formatter world events self
  = (set_current_page (Some (Int 0)) self, [CtxSend menu_loading], Raised TypeError).
Proof.
  intros Hm Hw. unfold start. simpl. rewrite Hm, Hw. simpl. done.
Qed.

Lemma get_page_keeps_current_page self n :
  current_page (get_page self n).1 = current_page self.
Proof.
  unfold get_page, get_page_try, next, __anext__, getitem_slice.
  destruct (_page_cache self !! n); [done|].
  destruct (data self) as [l|g|g|g|g]; simpl; done.
Qed.

Lemma sequence_inv_set_current_page items P m c self :
  sequence_inv items P m self ->
  sequence_inv items P m (set_current_page c self).
Proof. intros (? & ? & ? & ?). by repeat split. Qed.

(** Over a sequence with at least one page, however the loop is left (by
    the stop symbol, a timeout, the single-page return or a failing
    operation of the platform), [current_page] is [None] or lies inside
    [[0, max_pages)], and [max_pages] is what it was. *)
Lemma loop_page_in_range (formatter : formatter_t A) world bound last items P (m : Z) events :
  1 <= m ->
  ∀ self ops i final ops' exit,
    sequence_inv items P (Int m) self ->
    current_page self = Some (Int i) -> 0 <= i < m ->
    loop formatter world bound last events self ops = (final, ops', exit) ->
    max_pages final = Int m ∧
    (current_page final = None ∨
     ∃ c, current_page final = Some (Int c) ∧ 0 <= c < m).
Proof.
  intros Hm. induction events as [|e events IH];
    intros self ops i final ops' exit Hinv Hcur Hi; simpl; rewrite Hcur;
    pose proof (get_page_sequence items P (Int m) self i Hinv) as (Hinv1 & v & Hv & _);
    pose proof (get_page_keeps_current_page self i) as Hcur1;
    destruct (get_page self i) as [self1 r]; simpl in *; subst r;
    pose proof Hinv1 as (_ & _ & Hmax & _);
    rewrite Hcur in Hcur1;
    assert (Hhere : max_pages self1 = Int m ∧
                    (current_page self1 = None ∨
                     ∃ c, current_page self1 = Some (Int c) ∧ 0 <= c < m))
      by (split; [done|right; by exists i]).
  - repeat case_match; intros [= <- _ _]; exact Hhere.
  - destruct (match (if payload_ne _ last then _ else _) with Some _ => _ | None => _ end);
      [by intros [= <- _ _]|].
    destruct (eq_int (max_pages self1) 1); [by intros [= <- _ _]|].
    destruct bound; simpl; [|by intros [= <- _ _]].
    destruct (navigate_in_range self1 e i m Hmax Hm) as [[-> ->]|(c & Hc & ->)].
    + intros [= <- _ _]. split; [done|by left].
    + apply (IH _ _ c); [by apply sequence_inv_set_current_page|done|done].
Qed.

(** The same for a whole session over a non-empty sequence: however
    [start] ends, [current_page] is [None] (the stop symbol) or a valid
    page index. *)
Lemma sequence_session_page_in_range (formatter : formatter_t A) world events
      items (P : Z) p0 final ops out :
  0 < P -> items ≠ [] ->
  __init__ (Sequence items) P = Ok p0 ->
  start formatter world events p0 = (final, ops, out) ->
  ∃ m, 1 <= m ∧ max_pages p0 = Int m ∧ max_pages final = Int m ∧
       (current_page final = None ∨
        ∃ c, current_page final = Some (Int c) ∧ 0 <= c < m).
Proof.
  intros HP Hne. rewrite init_sequence by lia. intros [= <-] Hstart.
  set (L := Z.of_nat (length items)) in *.
  assert (HL : 1 <= L) by (destruct items; [done|simpl in L; lia]).
  rewrite (divmod_ceiling L P) in * by lia.
  set (m := (L + P - 1) `div` P) in *.
  assert (Hm : 1 <= m).
  { apply Z.div_le_lower_bound; lia. }
  set (p1 := Build (Sequence items) P (Some (Int 0)) ∅ (Int m) 0%nat []).
  assert (Hinv : sequence_inv items P (Int m) p1).
  { repeat split. intros k v. simpl. by rewrite lookup_empty. }
  assert (Hhere : max_pages p1 = Int m ∧
                  (current_page p1 = None ∨
                   ∃ c, current_page p1 = Some (Int c) ∧ 0 <= c < m)).
  { split; [reflexivity|]. right. exists 0. split; [reflexivity|lia]. }
  exists m. split; [exact Hm|]. split; [reflexivity|].
  revert Hstart. unfold start. simpl. fold p1.
  destruct (Z.eqb_spec m 0); [lia|].
  destruct (world [] (CtxSend menu_loading)).
  { intros [= <- _ _]. exact Hhere. }
  destruct (loop formatter world _ None events _ _)
    as [[final' ops'] exit] eqn:Hloop.
  apply (loop_page_in_range _ _ _ _ items P m _ Hm _ _ 0) in Hloop;
    [|exact Hinv|reflexivity|lia].
  destruct exit; [destruct (cleanup world ops')|..]; intros [= <- _ _]; exact Hloop.
Qed.

(** *** Every navigation step of a session *)

(** [loop_steps] and [start_steps] run [loop] and [start]: dropping the
    steps gives back their results. *)
Lemma loop_steps_runs_loop (formatter : formatter_t A) world bound last events :
  ∀ self ops,
    (loop_steps formatter world bound last events self ops).1
    = loop formatter world bound last events self ops.
Proof.
  induction events as [|e events IH]; intros self ops; simpl.
  - by repeat case_match.
  - destruct (current_page self) as [[|i]|]; try done.
    destruct (get_page self i) as [self1 [v|x]]; [|done].
    destruct (match (if payload_ne _ last then _ else _) with
              | Some op => world ops op | None => None end); [done|].
    destruct (eq_int (max_pages self1) 1); [done|].
    destruct bound; simpl; [|done].
    destruct (navigate e self1 i) as [self2 [x|]]; [done|].
    rewrite <- IH. by destruct (loop_steps _ _ _ _ _ _ _).
Qed.

Lemma start_steps_runs_start (formatter : formatter_t A) world events self :
  (start_steps formatter world events self).1 = start formatter world events self.
Proof.
  unfold start_steps, start.
  destruct (eq_int _ 0); [done|].
  destruct (world [] (CtxSend menu_loading)); [done|].
  destruct (gt _ (Int 1)) as [more|x]; [|done].
  rewrite <- loop_steps_runs_loop.
  destruct (loop_steps _ _ _ _ _ _ _) as [[[self1 ops1] [| |x]] steps]; simpl; try done.
  by destruct (cleanup world ops1).
Qed.




(** Over a source whose page count is still ["?"] there is no step to
    speak of: the session ends before the loop. *)
Lemma unknown_page_count_no_steps (formatter : formatter_t A) world events self :
  max_pages self = QMark ->
  navigation_steps formatter world events self = [].
Proof.
  intros Hm. unfold navigation_steps, start_steps. simpl. rewrite Hm. simpl.
  by destruct (world [] (CtxSend menu_loading)).
Qed.

(** *** Rendering *)

Lemma edits_app (xs ys : list effect) : edits (xs ++ ys) = (edits xs + edits ys)%nat.
Proof. unfold edits. by rewrite List.filter_app, length_app. Qed.

Lemma edits_snoc_edit (xs : list effect) d :
  edits (xs ++ [MessageEdit d]) = S (edits xs).
Proof. rewrite edits_app. change (edits [MessageEdit d]) with 1%nat. lia. Qed.

(** On a platform where nothing fails, every pass through the loop edits the
    message, whatever the formatter returns: [last_payload] is still [None]
    at every comparison. *)
Lemma loop_edits_every_pass (formatter : formatter_t A) items P (m : Z) events :
  2 <= m -> StopSquare ∉ events ->
  ∀ self done i,
    sequence_inv items P (Int m) self ->
    current_page self = Some (Int i) ->
    ∃ final done',
      loop formatter (fun _ _ => None) true None events self done
      = (final, done', Break) ∧
      edits done' = (edits done + S (length events))%nat.
Proof.
  intros Hm. induction events as [|e events IH]; intros Hstop self done i Hinv Hcur.
  - simpl. rewrite Hcur.
    destruct (get_page_sequence items P (Int m) self i Hinv) as ((_ & _ & Hmax & _) & v & Hv & _).
    destruct (get_page self i) as [self1 r]. simpl in *. subst r.
    rewrite Hmax. simpl. destruct (Z.eqb_spec m 1); [lia|].
    eexists _, _. split; [reflexivity|]. rewrite edits_snoc_edit. simpl. lia.
  - simpl. rewrite Hcur.
    pose proof (get_page_sequence items P (Int m) self i Hinv) as (Hinv1 & v & Hv & _).
    destruct (get_page self i) as [self1 r]. simpl in *. subst r.
    pose proof Hinv1 as (_ & _ & Hmax & _).
    rewrite Hmax. simpl. destruct (Z.eqb_spec m 1); [lia|].
    destruct (navigate_in_range self1 e i m Hmax ltac:(lia)) as [[-> _]|(c & _ & ->)].
    { exfalso. apply Hstop. by left. }
    destruct (IH ltac:(set_solver) (set_current_page (Some (Int c)) self1)
                 (done ++ [MessageEdit (normalize (formatter self1 v))]) c
                 (sequence_inv_set_current_page _ _ _ _ _ Hinv1) eq_refl)
      as (final & done' & -> & Hcount).
    eexists _, _. split; [reflexivity|].
    rewrite Hcount, edits_snoc_edit. simpl. lia.
Qed.

(** *** Leaving the session *)

(** Whatever [clear_reactions] raises, what leaves [start] is the
    [AttributeError] of looking up [discord.Exception]. *)
Lemma cleanup_failure_escapes world (done : list effect) x :
  world done ClearReactions = Some x ->
  cleanup world done = (done ++ [ClearReactions], Raised AttributeError).
Proof. intros Hx. unfold cleanup. by rewrite Hx. Qed.

Lemma cleanup_success world (done : list effect) :
  world done ClearReactions = None ->
  cleanup world done = (done ++ [ClearReactions], Returned).
Proof. intros Hx. unfold cleanup. by rewrite Hx. Qed.

(** C8. A paginator constructed over an empty sequence has [max_pages = 0],
    and a session on it issues exactly one operation, the send of the
    no-data notice, and ends there (returning, or with the exception of
    that send): no placeholder, no reaction, no page fetched or rendered,
    and no change to the paginator other than [current_page = 0]. *)
Theorem empty_sequence_session (P : Z) self (formatter : formatter_t A) world events :
  __init__ (Sequence []) P = Ok self ->
  max_pages self = Int 0 ∧
  start formatter world events self
  = (set_current_page (Some (Int 0)) self, [CtxSend no_data],
     match world [] (CtxSend no_data) with
     | None => Returned
     | Some x => Raised x
     end).
Proof.
  unfold __init__. destruct P as [|P|P]; simpl; [done| |];
    intros [= <-]; split; reflexivity.
Qed.

End Pages.

(** *** The statements above at concrete inputs *)

Import Scenario.

(** The example of the specification: twenty-five items, ten a page. *)
Example pages_of_25 :
  __init__ (Sequence one_to_25) 10 = Ok numbers_paginator ∧
  (get_page numbers_paginator 0).2 = Ok (Page 0 (seqZ 1 10)) ∧
  (get_page numbers_paginator 1).2 = Ok (Page 0 (seqZ 11 10)) ∧
  (get_page numbers_paginator 2).2 = Ok (Page 0 (seqZ 21 5)) ∧
  (navigate NextPage (set_current_page (Some (Int 2)) numbers_paginator) 2).1
  = set_current_page (Some (Int 2)) numbers_paginator.
Proof. repeat split. Qed.

Lemma sequence_pages_witness :
  0 < 10 ∧
  ∃ p0 v,
    __init__ (Sequence one_to_25) 10 = Ok p0 ∧
    max_pages p0 = Int 3 ∧
    (get_page (get_pages p0 [0; 1]) 2).2 = Ok v ∧
    page_items v = seqZ 21 5.
Proof.
  split; [lia|].
  destruct (sequence_pages one_to_25 10 [0; 1] 2 ltac:(lia))
    as (p0 & v & Hinit & Hmax & Hget & Hvalid & _).
  exists p0, v. repeat split; try assumption.
  apply Hvalid. vm_compute. split; [discriminate | reflexivity].
Defined.

(** Against C5 as stated: page [-2] of twenty-five items, ten a page, is
    out of range, and [data[-20:-10]] holds the items 6 to 15. *)
Lemma negative_page_not_empty :
  __init__ (Sequence one_to_25) 10 = Ok numbers_paginator ∧
  max_pages numbers_paginator = Int 3 ∧
  ¬ (0 <= -2 < 3) ∧
  (get_page numbers_paginator (-2)).2 = Ok (Page 0 (seqZ 6 10)) ∧
  seqZ 6 10 ≠ [].
Proof. repeat split; try done. lia. Qed.

Lemma cached_page_reused_witness :
  _page_cache letters_on_page_0 !! 0 = Some (Page 0 ["a"]) ∧
  get_page (get_pages letters_on_page_0 [1; 0; 5]) 0
  = (get_pages letters_on_page_0 [1; 0; 5], Ok (Page 0 ["a"])).
Proof.
  split; [reflexivity|].
  apply (cached_page_reused letters_on_page_0 0 (Page 0 ["a"]) [1; 0; 5]).
  reflexivity.
Defined.

Lemma empty_sequence_session_witness :
  __init__ (Sequence []) 10 = Ok empty_paginator ∧
  max_pages empty_paginator = Int 0 ∧
  start same_text quiet [NextPage; LastPage] empty_paginator
  = (set_current_page (Some (Int 0)) empty_paginator, [CtxSend no_data], Returned).
Proof.
  split; [reflexivity|].
  apply (empty_sequence_session 10 empty_paginator same_text quiet [NextPage; LastPage]).
  reflexivity.
Defined.

(** C1, on the code. A paginator over a generator that still has two
    batches to give: [get_page 0], not cached, pulls nothing. Over the
    synchronous generator it ends in [AttributeError] (the generator has no
    [__anext__]), over the asynchronous one in [TypeError] ([next] of
    something that is not an iterator); the generator has not moved. *)
Theorem generated_page_is_not_pulled :
  __init__ (Generator two_batches) 10 = Ok (fresh (Generator two_batches)) ∧
  get_page (fresh (Generator two_batches)) 0
  = (fresh (Generator two_batches), Raise AttributeError) ∧
  __init__ (AsyncGenerator two_batches) 10 = Ok (fresh (AsyncGenerator two_batches)) ∧
  get_page (fresh (AsyncGenerator two_batches)) 0
  = (fresh (AsyncGenerator two_batches), Raise TypeError).
Proof. repeat split. Qed.

(** C2, on the code. A paginator over an exhausted generator: [get_page 0]
    does not return, and [max_pages] is still ["?"] afterwards, for the
    synchronous and for the asynchronous generator alike. *)
Theorem exhaustion_is_not_handled :
  next (fresh (Generator no_batches))
  = (fresh (Generator no_batches), Raise StopIteration) ∧
  get_page (fresh (Generator no_batches)) 0
  = (fresh (Generator no_batches), Raise AttributeError) ∧
  get_page (fresh (AsyncGenerator no_batches)) 0
  = (fresh (AsyncGenerator no_batches), Raise TypeError) ∧
  max_pages (get_page (fresh (Generator no_batches)) 0).1 = QMark ∧
  max_pages (get_page (fresh (AsyncGenerator no_batches)) 0).1 = QMark.
Proof. repeat split. Qed.

(** The steps of a session over two pages with three reactions, the last
    of them the stop symbol; and of a session over a generator, which has
    none. *)
Example steps_of_a_session :
  navigation_steps same_text quiet [NextPage; LastPage; StopSquare; FirstPage]
                   letters_paginator
  = [ Step letters_on_page_0 NextPage 0;
      Step (Build (Sequence letters) 1 (Some (Int 1))
                  {[0 := Page 0 ["a"]; 1 := Page 1 ["b"]]} (Int 2) 2%nat
                  [TookSlice 1 2; TookSlice 0 1])
           LastPage 1;
      Step (Build (Sequence letters) 1 (Some (Int 1))
                  {[0 := Page 0 ["a"]; 1 := Page 1 ["b"]]} (Int 2) 2%nat
                  [TookSlice 1 2; TookSlice 0 1])
           StopSquare 1 ] ∧
  navigation_steps same_text quiet [NextPage] (fresh (Generator two_batches)) = [].
Proof. split; vm_compute; reflexivity. Qed.

(** C4, on the code. Two pages, a formatter that always returns the same
    text, and one first-page reaction while page [0] is shown: the same
    payload is rendered twice in a row and the message is edited twice. *)
Theorem same_payload_is_edited_again :
  __init__ (Sequence letters) 1 = Ok letters_paginator ∧
  start same_text quiet [FirstPage] letters_paginator
  = (letters_on_page_0,
     [CtxSend menu_loading] ++ map AddReactionTask valid_emojis ++
     [MessageEdit menu_payload; MessageEdit menu_payload; ClearReactions],
     Returned).
Proof. split; [reflexivity|]. vm_compute. reflexivity. Qed.

(** C7, on the code. Two pages, no reaction (the wait times out), and a
    platform that forbids clearing the reactions: [start] does not return,
    [AttributeError] leaves it. *)
Theorem failed_cleanup_escapes :
  start same_text no_clearing [] letters_paginator
  = (letters_on_page_0,
     [CtxSend menu_loading] ++ map AddReactionTask valid_emojis ++
     [MessageEdit menu_payload; ClearReactions],
     Raised AttributeError) ∧
  start same_text no_clearing [StopSquare] letters_paginator
  = (set_current_page None letters_on_page_0,
     [CtxSend menu_loading] ++ map AddReactionTask valid_emojis ++
     [MessageEdit menu_payload; ClearReactions],
     Raised AttributeError).
Proof. split; vm_compute; reflexivity. Qed.

End PaginatorFacts.

(** ** Properties of the error handler *)

Module ErrorHandlerFacts.

Import ErrorHandler.

Section Dispatch.

Implicit Types (table : list (list exc_class * formatter_t)) (e : error).

(** *** The dispatch table *)

(** The first pair whose types match gives the output, whatever comes
    after it. *)
Lemma respond_first_match table pre types function post ctx e :
  table = pre ++ (types, function) :: post ->
  Forall (fun entry => isinstance e entry.1 = false) pre ->
  isinstance e types = true ->
  respond table ctx e = function ctx e.
Proof.
  intros -> Hpre Hhit. induction Hpre as [|[ts f] pre Hmiss _ IH]; simpl.
  - by rewrite Hhit.
  - simpl in Hmiss. by rewrite Hmiss.
Qed.

(** With no matching pair the output is [None]. *)
Lemma respond_no_match table ctx e :
  Forall (fun entry => isinstance e entry.1 = false) table ->
  respond table ctx e = Ok ONone.
Proof.
  induction 1 as [|[ts f] table Hmiss _ IH]; simpl; [done|].
  simpl in Hmiss. by rewrite Hmiss.
Qed.

(** An output of [None] from a matching formatter is not told apart from
    no match at all: the listener goes on exactly as it does with an empty
    table. *)
Lemma none_output_as_unmatched table bot world ctx e :
  respond table
          (set_original_author_id (default (author_id ctx) (original_author_id ctx)) ctx) e
  = Ok ONone ->
  on_command_error_with table bot world ctx e
  = on_command_error_with [] bot world ctx e.
Proof.
  intros Hnone. unfold on_command_error_with. simpl. by rewrite Hnone.
Qed.

(** *** Ignored errors *)

(** C10. For an error that is a [CommandNotFound] or an
    [InvokedMetaCommand], the listener returns at once: it issues no
    operation at all (no send to the channel or the author, no reinvoke,
    nothing to the owners or the webhook), the context is untouched (no
    [original_author_id] is set), and nothing is raised. *)
Theorem ignored_errors_return_at_once bot world ctx e :
  CommandNotFound ∈ classes e ∨ InvokedMetaCommand ∈ classes e ->
  on_command_error bot world ctx e = (ctx, [], Returned).
Proof.
  intros Hcls. unfold on_command_error, on_command_error_with.
  assert (isinstance e ignored_errors = true) as ->; [|done].
  unfold isinstance, ignored_errors. simpl.
  destruct Hcls as [H|H].
  - by rewrite (bool_decide_eq_true_2 _ H).
  - rewrite (bool_decide_eq_true_2 _ H). by rewrite !orb_true_r.
Qed.

End Dispatch.

(** *** The statements above at concrete inputs *)

Import ErrorScenario.

Lemma ignored_errors_return_at_once_witness :
  CommandNotFound ∈ classes unknown_command ∧
  on_command_error a_bot quiet somebody unknown_command = (somebody, [], Returned).
Proof.
  split; [by left|].
  apply (ignored_errors_return_at_once a_bot quiet somebody unknown_command).
  left. by left.
Defined.

(** An order that matters: a [Forbidden] is also an [HTTPException], and
    gets the output of the earlier pair. *)
Example forbidden_gets_its_own_pair :
  respond COMMAND_ERROR_RESPONSES somebody forbidden
  = Ok (OPair "Discord is saying I'm unable to perform that action."
              "Discord is saying I'm unable to perform that action - I probably don't have permission to talk in that channel.").
Proof. reflexivity. Qed.

(** C6, on the code. A [discord.NotFound] matches its pair (ahead of the
    [HTTPException] pair it also fits) and the formatter returns [None];
    the listener then sends the raw error to the channel, reports to the
    owner and to the webhook, and raises the error again. *)
Theorem not_found_is_not_suppressed :
  respond COMMAND_ERROR_RESPONSES somebody not_found = Ok ONone ∧
  on_command_error a_bot quiet somebody not_found
  = (set_original_author_id 7 somebody,
     [ CtxSend ("```py" +:+ nl +:+ err_str not_found +:+ "```");
       OwnerSend 1 not_found_report;
       WebhookSend hook not_found_report "VoxelBot - Error" ],
     Reraised).
Proof. split; vm_compute; reflexivity. Qed.

End ErrorHandlerFacts.

(** ** More on the paginator: pages, the cache, and the shape of a session *)

Module PaginatorMore.

Import Paginator PaginatorFacts.

#[local] Set Warnings "-clear-no-such-hyp".

Section Pages.

Context {A : Type}.
Implicit Types (self p : Paginator A) (items : list A) (v : page A).

(** *** Pages as pieces of the sequence *)

(** From page [0] on, the Python slice of a page is the next [P] items, or
    what is left of them. *)
Lemma slice_of_page items (P n : Z) :
  0 < P -> 0 <= n ->
  slice items (n * P) ((n + 1) * P)
  = take (Z.to_nat P) (drop (Z.to_nat (n * P)) items).
Proof.
  intros HP Hn. rewrite slice_forward by nia. unfold segment.
  set (L := Z.of_nat (length items)).
  destruct (Z_le_gt_dec ((n + 1) * P) L) as [Hfull|Hshort].
  - rewrite Z.min_l by lia. f_equal. lia.
  - rewrite Z.min_r by lia.
    rewrite !take_ge; [done|..]; rewrite length_drop; subst L; lia.
Qed.

Lemma pages_up_to items (P : Z) (k : nat) :
  0 < P ->
  concat ((fun n => slice items (n * P) ((n + 1) * P)) <$> seqZ 0 (Z.of_nat k))
  = take (Z.to_nat (Z.of_nat k * P)) items.
Proof.
  intros HP. induction k as [|k IH].
  - by rewrite take_0.
  - replace (Z.of_nat (S k)) with (Z.of_nat k + 1) by lia.
    rewrite seqZ_app by lia. rewrite fmap_app, concat_app, IH. simpl.
    rewrite app_nil_r, Z.add_0_l, slice_of_page by lia.
    rewrite take_take_drop. f_equal. lia.
Qed.

Lemma browse_sequence items P m ns :
  ∀ p, sequence_inv items P m p ->
       ∃ vs, browse p ns = Ok <$> vs ∧
             page_items <$> vs
             = (fun n => slice items (n * P) ((n + 1) * P)) <$> ns.
Proof.
  induction ns as [|n ns IH]; intros p Hinv.
  - by exists [].
  - destruct (get_page_sequence items P m p n Hinv) as (Hinv' & v & Hv & Hitems).
    simpl. destruct (get_page p n) as [p' r]. simpl in *. subst r.
    destruct (IH p' Hinv') as (vs & -> & Hvs).
    exists (v :: vs). split; [done|]. by rewrite !fmap_cons, Hitems, Hvs.
Qed.

Lemma fresh_sequence_inv items (P : Z) :
  0 < P ->
  ∃ p0, __init__ (Sequence items) P = Ok p0 ∧
        sequence_inv items P
          (Int ((Z.of_nat (length items) + P - 1) `div` P)) p0 ∧
        current_page p0 = None ∧ _page_cache p0 = ∅ ∧ source_log p0 = [] ∧
        allocated p0 = 0%nat.
Proof.
  intros HP. rewrite init_sequence by lia. eexists. split; [reflexivity|].
  repeat split; simpl.
  - f_equal. apply divmod_ceiling; lia.
  - intros k v. by rewrite lookup_empty.
Qed.

(** X1. Paging loses nothing and repeats nothing: over a sequence with
    page size [P > 0], asking a new paginator for the pages [0], [1], ...,
    [max_pages - 1] in turn returns a page each time, and the pages put
    end to end are the sequence itself. *)
Theorem pages_put_together items (P : Z) :
  0 < P ->
  ∃ p0 m vs,
    __init__ (Sequence items) P = Ok p0 ∧ max_pages p0 = Int m ∧
    browse p0 (seqZ 0 m) = Ok <$> vs ∧
    concat (page_items <$> vs) = items.
Proof.
  intros HP. destruct (fresh_sequence_inv items P HP) as (p0 & Hinit & Hinv & _).
  set (L := Z.of_nat (length items)) in *.
  set (m := (L + P - 1) `div` P) in *.
  assert (Hm : 0 <= m) by (apply Z.div_pos; lia).
  destruct (browse_sequence items P (Int m) (seqZ 0 m) p0 Hinv) as (vs & Hvs & Hitems).
  exists p0, m, vs. split; [done|]. split; [by destruct Hinv as (_ & _ & ? & _)|].
  split; [done|]. rewrite Hitems.
  rewrite <- (Z2Nat.id m Hm) at 1. rewrite pages_up_to by done.
  apply take_ge. rewrite Z2Nat.id by done.
  pose proof (ceiling_covers L P m HP ltac:(lia)). subst L. lia.
Qed.

(** X2. Over a sequence of length [L] with page size [P > 0], every valid
    page [n] holds [min P (L - n * P)] items: never none, never more than
    [P], and exactly [P] on every page but the last. *)
Theorem page_is_full_or_last items (P : Z) (ns : list Z) (n : Z) :
  0 < P ->
  let L := Z.of_nat (length items) in
  ∀ p0 m,
    __init__ (Sequence items) P = Ok p0 -> max_pages p0 = Int m ->
    0 <= n < m ->
    ∃ v, (get_page (get_pages p0 ns) n).2 = Ok v ∧
         Z.of_nat (length (page_items v)) = Z.min P (L - n * P) ∧
         1 <= Z.of_nat (length (page_items v)) <= P ∧
         (n < m - 1 -> Z.of_nat (length (page_items v)) = P).
Proof.
  intros HP L p0 m Hinit Hmax Hn.
  destruct (fresh_sequence_inv items P HP) as (p & Hinit' & Hinv & _).
  rewrite Hinit in Hinit'. injection Hinit' as <-.
  fold L in Hinv. pose proof Hinv as (_ & _ & Hm & _).
  rewrite Hmax in Hm. injection Hm as ->.
  apply (get_pages_sequence _ _ _ _ ns) in Hinv.
  destruct (get_page_sequence _ _ _ _ n Hinv) as (_ & v & Hv & Hitems).
  exists v. split; [done|].
  rewrite Hitems, slice_of_page by lia.
  rewrite length_take, length_drop. fold L.
  pose proof (Z.div_mod (L + P - 1) P ltac:(lia)) as Hdm.
  pose proof (Z.mod_pos_bound (L + P - 1) P HP) as Hr.
  assert (n * P < L) by nia.
  repeat split; try lia. intros Hlast. nia.
Qed.

(** *** What the cache records *)

(** X3. On a sequence, the source is read once for each page number, not
    once for each call: after any run of [get_page] calls on a new
    paginator, the cached page numbers are exactly the numbers asked for,
    and the number of slices taken (and of page objects made) is the number
    of distinct numbers among them. *)
Theorem one_slice_per_page items (P : Z) (ns : list Z) p0 :
  __init__ (Sequence items) P = Ok p0 ->
  let p := get_pages p0 ns in
  dom (_page_cache p) = list_to_set ns ∧
  length (source_log p) = size (list_to_set ns : gset Z) ∧
  allocated p = size (list_to_set ns : gset Z).
Proof.
  intros Hinit.
  assert (Hgen : ∀ ns p (D : gset Z),
             data p = Sequence items -> dom (_page_cache p) = D ->
             length (source_log p) = size D -> allocated p = size D ->
             dom (_page_cache (get_pages p ns)) = D ∪ list_to_set ns ∧
             length (source_log (get_pages p ns)) = size (D ∪ list_to_set ns) ∧
             allocated (get_pages p ns) = size (D ∪ list_to_set ns)).
  { clear. intros ns. induction ns as [|n ns IH]; intros p D Hd HD Hlog Hal.
    - replace (D ∪ list_to_set []) with D by set_solver. done.
    - replace (D ∪ list_to_set (n :: ns))
        with ((D ∪ {[n]}) ∪ list_to_set ns) by set_solver.
      apply IH; unfold get_page.
      + destruct (_page_cache p !! n); [done|].
        unfold get_page_try, getitem_slice. by rewrite Hd.
      + destruct (_page_cache p !! n) as [v|] eqn:Hn; simpl.
        * rewrite HD. apply elem_of_dom_2 in Hn. set_solver.
        * unfold get_page_try, getitem_slice. rewrite Hd. simpl.
          rewrite dom_insert_L, HD. set_solver.
      + destruct (_page_cache p !! n) as [v|] eqn:Hn; simpl.
        * rewrite Hlog. f_equal. apply elem_of_dom_2 in Hn. set_solver.
        * unfold get_page_try, getitem_slice. rewrite Hd. simpl.
          apply not_elem_of_dom in Hn. rewrite Hlog, size_union, size_singleton by set_solver.
          lia.
      + destruct (_page_cache p !! n) as [v|] eqn:Hn; simpl.
        * rewrite Hal. f_equal. apply elem_of_dom_2 in Hn. set_solver.
        * unfold get_page_try, getitem_slice. rewrite Hd. simpl.
          apply not_elem_of_dom in Hn. rewrite Hal, size_union, size_singleton by set_solver.
          lia. }
  assert (Hfresh : data p0 = Sequence items ∧ _page_cache p0 = ∅ ∧
                   source_log p0 = [] ∧ allocated p0 = 0%nat).
  { revert Hinit. unfold __init__. simpl. destruct (P =? 0); [done|].
    by intros [= <-]. }
  destruct Hfresh as (Hd & Hc & Hl & Ha).
  destruct (Hgen ns p0 ∅ Hd) as (H1 & H2 & H3).
  - by rewrite Hc, dom_empty_L.
  - by rewrite Hl, size_empty.
  - by rewrite Ha, size_empty.
  - replace (∅ ∪ list_to_set ns : gset Z) with (list_to_set ns : gset Z)
      in H1, H2, H3 by set_solver.
    done.
Qed.

(** X4. [get_page] only ever touches the cache and the bookkeeping: after
    any run of calls, on any kind of source, [data] (so also the position
    of a generator), [per_page], [current_page] and [max_pages] are what
    they were. *)
Theorem get_page_leaves_attributes self (ns : list Z) :
  let p := get_pages self ns in
  data p = data self ∧ per_page p = per_page self ∧
  current_page p = current_page self ∧ max_pages p = max_pages self.
Proof.
  revert self. induction ns as [|n ns IH]; intros self; [done|].
  simpl. destruct (IH (get_page self n).1) as (-> & -> & -> & ->).
  unfold get_page, get_page_try, next, __anext__, getitem_slice.
  destruct (_page_cache self !! n); [done|].
  destruct (data self) as [l|g|g|g|g] eqn:Hd; simpl; rewrite ?Hd; done.
Qed.

(** X20. Construction fails in one case only, a sequence with
    [per_page = 0] (the [divmod] raises [ZeroDivisionError]); in every
    other case it gives a paginator over the same data with the same page
    size, no current page and an empty cache, whose [max_pages] is ["?"]
    exactly when the data is generator-like, whatever [per_page] is. *)
Theorem construction_outcomes (d : source A) (P : Z) :
  match __init__ d P with
  | Raise x => x = ZeroDivisionError ∧ P = 0 ∧ ∃ items, d = Sequence items
  | Ok p =>
      data p = d ∧ per_page p = P ∧ current_page p = None ∧
      _page_cache p = ∅ ∧
      (max_pages p = QMark <->
       isasyncgenfunction d || isasyncgen d || isgeneratorfunction d || isgenerator d
       = true) ∧
      ((∃ items, d = Sequence items) -> P ≠ 0)
  end.
Proof.
  unfold __init__. destruct d as [items|g|g|g|g]; simpl;
    try (repeat split; try done; by intros [? [=]]).
  destruct (Z.eqb_spec P 0) as [->|HP]; simpl.
  - split; [done|]. split; [done|]. by eexists.
  - repeat split; try done.
Qed.

(** X21. Over a non-empty sequence with [per_page > 0], however the
    session goes (whatever reactions arrive, whatever the platform lets
    fail) and however [start] ends, it leaves [max_pages] as constructed
    and [current_page] either [None] (after the stop symbol) or a valid
    page index. *)
Theorem session_keeps_page_valid (formatter : formatter_t A) world events
        items (P : Z) p0 :
  0 < P -> items ≠ [] ->
  __init__ (Sequence items) P = Ok p0 ->
  let final := (start formatter world events p0).1.1 in
  max_pages final = max_pages p0 ∧
  ∃ m, max_pages p0 = Int m ∧
       (current_page final = None ∨
        ∃ c, current_page final = Some (Int c) ∧ 0 <= c < m).
Proof.
  intros HP Hne Hinit.
  destruct (start formatter world events p0) as [[final ops] out] eqn:Hstart.
  destruct (sequence_session_page_in_range formatter world events items P p0
              final ops out HP Hne Hinit Hstart) as (m & _ & Hm0 & Hm & Hcur).
  simpl. split; [congruence|]. by exists m.
Qed.

(** *** The shape of a session *)

(** The loop only ever adds edits of the message to what was issued. *)
Lemma loop_only_edits (formatter : formatter_t A) world bound last events :
  ∀ self ops final ops' exit,
    loop formatter world bound last events self ops = (final, ops', exit) ->
    ∃ es, ops' = ops ++ es ∧ Forall (fun op => is_edit op = true) es.
Proof.
  assert (Hnil : ∀ ops : list effect,
             ∃ es, ops = ops ++ es ∧ Forall (fun op => is_edit op = true) es).
  { intros ops. exists []. by rewrite app_nil_r. }
  assert (Hstep : ∀ (ops : list effect) op es,
             (match op with Some o => is_edit o = true | None => True end) ->
             Forall (fun op => is_edit op = true) es ->
             ∃ es', (match op with Some o => ops ++ [o] | None => ops end) ++ es
                    = ops ++ es' ∧ Forall (fun op => is_edit op = true) es').
  { intros ops [o|] es Ho Hes.
    - exists (o :: es). split; [by rewrite <- app_assoc|by constructor].
    - by exists es. }
  induction events as [|e events IH]; intros self ops final ops' exit; simpl.
  - destruct (current_page self) as [[|i]|]; try (intros [= _ <- _]; apply Hnil).
    destruct (get_page self i) as [self1 [v|x]]; [|intros [= _ <- _]; apply Hnil].
    set (edit := if payload_ne _ last then _ else _).
    assert (Hedit : match edit with Some o => is_edit o = true | None => True end)
      by (subst edit; by destruct (payload_ne _ last)).
    destruct (match edit with Some op => world ops op | None => None end);
      [|destruct (eq_int (max_pages self1) 1)];
      intros [= _ <- _];
      destruct (Hstep ops edit [] Hedit ltac:(constructor)) as (es & Hes & ?);
      rewrite app_nil_r in Hes; rewrite Hes; by exists es.
  - destruct (current_page self) as [[|i]|]; try (intros [= _ <- _]; apply Hnil).
    destruct (get_page self i) as [self1 [v|x]]; [|intros [= _ <- _]; apply Hnil].
    set (edit := if payload_ne _ last then _ else _).
    assert (Hedit : match edit with Some o => is_edit o = true | None => True end)
      by (subst edit; by destruct (payload_ne _ last)).
    assert (Hhere : ∃ es, (match edit with Some o => ops ++ [o] | None => ops end)
                          = ops ++ es ∧ Forall (fun op => is_edit op = true) es).
    { destruct (Hstep ops edit [] Hedit ltac:(constructor)) as (es & Hes & ?).
      rewrite app_nil_r in Hes. by exists es. }
    destruct (match edit with Some op => world ops op | None => None end);
      [by intros [= _ <- _]|].
    destruct (eq_int (max_pages self1) 1); [by intros [= _ <- _]|].
    destruct bound; simpl; [|by intros [= _ <- _]].
    destruct (navigate e self1 i) as [self2 [x|]]; [by intros [= _ <- _]|].
    intros Hloop. apply IH in Hloop as (es & -> & Hes).
    by apply Hstep.
Qed.

(** X5. A session over a sequence that fits on one page (between one and
    [per_page] items), on a platform that accepts the placeholder and the
    edit: the whole session is the placeholder followed by one edit showing
    all the items; no reaction is attached, no reaction is waited for
    (whatever arrives is ignored), the reactions are not cleared, and
    [start] returns. *)
Theorem single_page_session (formatter : formatter_t A) world events items (P : Z) p0 :
  items ≠ [] -> Z.of_nat (length items) <= P ->
  __init__ (Sequence items) P = Ok p0 ->
  world [] (CtxSend menu_loading) = None ->
  (∀ d, world [CtxSend menu_loading] (MessageEdit d) = None) ->
  ∃ final,
    start formatter world events p0
    = (final,
       [CtxSend menu_loading;
        MessageEdit (normalize (formatter final (Page 0 items)))],
       Returned) ∧
    max_pages final = Int 1 ∧
    current_page final = Some (Int 0) ∧
    _page_cache final = {[0 := Page 0 items]}.
Proof.
  intros Hne HL. set (L := Z.of_nat (length items)) in *.
  assert (1 <= L) by (destruct items; [done|simpl in L; lia]).
  rewrite init_sequence by lia. cbv zeta. fold L.
  rewrite (divmod_ceiling L P) by lia.
  replace ((L + P - 1) `div` P) with 1
    by (apply (Z.div_unique_pos _ _ _ (L - 1)); lia).
  intros [= <-] Hsend Hedit.
  assert (Hslice : slice items (0 * P) ((0 + 1) * P) = items).
  { rewrite slice_of_page by lia. simpl. apply take_ge. lia. }
  exists (Build (Sequence items) P (Some (Int 0)) {[0 := Page 0 items]} (Int 1)
                1%nat [TookSlice (0 * P) ((0 + 1) * P)]).
  split; [|done].
  unfold start. simpl. rewrite Hsend. simpl.
  destruct events; simpl; unfold get_page; simpl;
    rewrite lookup_empty; simpl; rewrite Hslice, Hedit; simpl; reflexivity.
Qed.

(** X6. A session over a paginator with more than one page, once the
    placeholder is sent: [start] first creates the five [add_reaction]
    tasks (lines 77-78), in the order of [valid_emojis]; every operation it
    issues after that is an edit of the message, except for at most one
    clearing of the reactions, which is then the last. When the tasks run,
    and so when the reactions show, is up to the event loop and is not
    said here. *)
Theorem multi_page_session_shape (formatter : formatter_t A) world events self (m : Z)
        final ops out :
  max_pages self = Int m -> 1 < m ->
  world [] (CtxSend menu_loading) = None ->
  start formatter world events self = (final, ops, out) ->
  ∃ es tail,
    ops = [CtxSend menu_loading] ++ map AddReactionTask valid_emojis ++ es ++ tail ∧
    Forall (fun op => is_edit op = true) es ∧
    (tail = [] ∨ tail = [ClearReactions]).
Proof.
  intros Hm Hgt Hsend. unfold start. simpl. rewrite Hm, Hsend. simpl.
  destruct (Z.eqb_spec m 0); [lia|].
  destruct (Z.ltb_spec 1 m); [|lia].
  destruct (loop formatter world true None events _ _)
    as [[final' ops'] exit] eqn:Hloop.
  apply loop_only_edits in Hloop as (es & -> & Hes).
  destruct exit.
  - unfold cleanup.
    destruct (world _ ClearReactions); simpl; intros [= _ <- _];
      exists es, [ClearReactions]; (split; [|by auto]);
      rewrite <- ?app_assoc; reflexivity.
  - intros [= _ <- _]. exists es, []. rewrite app_nil_r. by auto.
  - intros [= _ <- _]. exists es, []. rewrite app_nil_r. by auto.
Qed.

(** X7. With a known page count [m >= 1], a reaction that asks for page
    [c] (the last-page symbol asks for [m]) moves to the nearest valid
    page, [max 0 (min (m - 1) c)], and the session goes on. *)
Theorem navigate_to_nearest_page self e (i m c : Z) :
  max_pages self = Int m -> 1 <= m ->
  turn e self i = Some (Int c) ->
  navigate e self i
  = (set_current_page (Some (Int (Z.max 0 (Z.min (m - 1) c)))) self, None).
Proof.
  intros Hm Hpos Hturn. unfold navigate. rewrite Hturn. simpl.
  unfold clamp. simpl. rewrite Hm. simpl.
  destruct (Z.leb_spec m c); simpl.
  - by replace (Z.max 0 (Z.min (m - 1) c)) with (m - 1) by lia.
  - destruct (Z.ltb_spec c 0); simpl.
    + by replace (Z.max 0 (Z.min (m - 1) c)) with 0 by lia.
    + by replace (Z.max 0 (Z.min (m - 1) c)) with c by lia.
Qed.

(** Reactions that arrive after the stop symbol are never looked at. *)
Lemma loop_ends_at_stop (formatter : formatter_t A) world bound last pre rest :
  ∀ self ops,
    loop formatter world bound last (pre ++ StopSquare :: rest) self ops
    = loop formatter world bound last (pre ++ [StopSquare]) self ops.
Proof.
  induction pre as [|e pre IH]; intros self ops; simpl.
  - done.
  - destruct (current_page self) as [[|i]|]; try done.
    destruct (get_page self i) as [self1 [v|x]]; [|done].
    destruct (match (if payload_ne _ last then _ else _) with
              | Some op => world ops op | None => None end); [done|].
    destruct (eq_int (max_pages self1) 1); [done|].
    destruct bound; simpl; [|done].
    destruct (navigate e self1 i) as [self2 [x|]]; [done|].
    apply IH.
Qed.

(** X8. The stop symbol ends the session for good: whatever reactions are
    still to come after it, the session runs exactly as if they never
    came (same operations, same final state, same way of ending). *)
Theorem nothing_after_stop (formatter : formatter_t A) world pre rest self :
  start formatter world (pre ++ StopSquare :: rest) self
  = start formatter world (pre ++ [StopSquare]) self.
Proof.
  unfold start.
  destruct (eq_int _ 0); [done|].
  destruct (world [] (CtxSend menu_loading)); [done|].
  destruct (gt _ (Int 1)) as [more|x]; [|done].
  by rewrite loop_ends_at_stop.
Qed.

(** X9. Nothing guards the edit: over a non-empty sequence, on a platform
    that accepts the placeholder and fails every edit with [x], the
    session ends with [x] leaving [start] right after the first edit is
    tried; the reactions are not cleared. *)
Theorem failed_edit_escapes (formatter : formatter_t A) world events items (P : Z) p0 x :
  0 < P -> items ≠ [] ->
  __init__ (Sequence items) P = Ok p0 ->
  world [] (CtxSend menu_loading) = None ->
  (∀ ops d, world ops (MessageEdit d) = Some x) ->
  ∃ final d,
    start formatter world events p0
    = (final,
       [CtxSend menu_loading]
       ++ (if eq_int (max_pages p0) 1 then [] else map AddReactionTask valid_emojis)
       ++ [MessageEdit d],
       Raised x).
Proof.
  intros HP Hne. rewrite init_sequence by lia. intros [= <-] Hsend Hedit.
  set (L := Z.of_nat (length items)) in *.
  assert (HL : 1 <= L) by (destruct items; [done|simpl in L; lia]).
  rewrite (divmod_ceiling L P) by lia.
  set (m := (L + P - 1) `div` P).
  assert (Hm : 1 <= m) by (apply Z.div_le_lower_bound; lia).
  unfold start. simpl. rewrite Hsend. simpl.
  destruct (Z.eqb_spec m 0); [lia|].
  destruct (Z.eqb_spec m 1) as [->|]; simpl.
  - eexists _, _. destruct events; simpl; unfold get_page; simpl;
      rewrite lookup_empty; simpl; rewrite Hedit; reflexivity.
  - destruct (Z.ltb_spec 1 m); [|lia].
    eexists _, _. destruct events; simpl; unfold get_page; simpl;
      rewrite lookup_empty; simpl; rewrite Hedit; reflexivity.
Qed.

End Pages.

(** X10. Whatever the formatter returns, the keyword dictionary of the
    edit has a ["content"] and an ["embed"] entry; a dictionary from the
    formatter keeps every entry it has, and only a missing ["content"] or
    ["embed"] is filled in, with [None]. *)
Theorem normalize_fills_in (r : rendered) :
  is_Some (normalize r !! "content") ∧ is_Some (normalize r !! "embed") ∧
  ∀ d k, r = RDict d ->
         normalize r !! k
         = match d !! k with
           | Some v => Some v
           | None => if bool_decide (k = "content" ∨ k = "embed")
                     then Some PNone else None
           end.
Proof.
  assert (Hdict : ∀ d k,
             normalize (RDict d) !! k
             = match d !! k with
               | Some v => Some v
               | None => if bool_decide (k = "content" ∨ k = "embed")
                         then Some PNone else None
               end).
  { intros d k. unfold normalize, setdefault.
    destruct (d !! "content") as [c|] eqn:Hc.
    - destruct (d !! "embed") as [m|] eqn:Hm.
      + destruct (d !! k) eqn:Hk; [done|].
        case_bool_decide as Hor; [|done]. destruct Hor; congruence.
      + rewrite lookup_insert. case_decide as Hk.
        * subst k. rewrite Hm. by rewrite bool_decide_eq_true_2 by auto.
        * destruct (d !! k) eqn:Hdk; [done|].
          case_bool_decide as Hor; [|done]. destruct Hor; congruence.
    - rewrite lookup_insert_ne by done. destruct (d !! "embed") as [m|] eqn:Hm.
      + rewrite lookup_insert. case_decide as Hk.
        * subst k. rewrite Hc. by rewrite bool_decide_eq_true_2 by auto.
        * destruct (d !! k) eqn:Hdk; [done|].
          case_bool_decide as Hor; [|done]. destruct Hor; congruence.
      + rewrite lookup_insert. case_decide as Hk.
        * subst k. rewrite Hm. by rewrite bool_decide_eq_true_2 by auto.
        * rewrite lookup_insert. case_decide as Hk'.
          -- subst k. rewrite Hc. by rewrite bool_decide_eq_true_2 by auto.
          -- destruct (d !! k) eqn:Hdk; [done|].
             case_bool_decide as Hor; [|done]. destruct Hor; congruence. }
  destruct r as [s|e|d].
  - split_and!; [by eexists|by eexists|done].
  - split_and!; [by eexists|by eexists|done].
  - split_and!.
    + rewrite Hdict. destruct (d !! "content"); by eexists.
    + rewrite Hdict. destruct (d !! "embed"); by eexists.
    + intros d' k [= <-]. apply Hdict.
Qed.

(** *** The statements above at concrete inputs *)

Import Scenario.

Lemma pages_put_together_witness :
  0 < 10 ∧
  ∃ p0 m vs,
    __init__ (Sequence one_to_25) 10 = Ok p0 ∧ max_pages p0 = Int m ∧
    browse p0 (seqZ 0 m) = Ok <$> vs ∧
    concat (page_items <$> vs) = one_to_25.
Proof. split; [lia|]. apply (pages_put_together one_to_25 10). lia. Defined.

Lemma page_is_full_or_last_witness :
  0 < 10 ∧
  ∃ v, (get_page (get_pages numbers_paginator [0]) 2).2 = Ok v ∧
       Z.of_nat (length (page_items v)) = 5.
Proof.
  split; [lia|].
  destruct (page_is_full_or_last one_to_25 10 [0] 2 ltac:(lia)
              numbers_paginator 3 eq_refl eq_refl ltac:(lia))
    as (v & Hv & Hlen & _).
  exists v. split; [exact Hv|exact Hlen].
Defined.

Lemma one_slice_per_page_witness :
  __init__ (Sequence one_to_25) 10 = Ok numbers_paginator ∧
  length (source_log (get_pages numbers_paginator [0; 1; 0; 0; 1])) = 2%nat.
Proof.
  split; [reflexivity|].
  destruct (one_slice_per_page one_to_25 10 [0; 1; 0; 0; 1] numbers_paginator eq_refl)
    as (_ & Hlog & _).
  rewrite Hlog. vm_compute. reflexivity.
Defined.

Lemma single_page_session_witness :
  __init__ (Sequence letters) 10 = Ok letters_on_one_page ∧
  ∃ final,
    start same_text quiet [NextPage; StopSquare] letters_on_one_page
    = (final, [CtxSend menu_loading; MessageEdit menu_payload], Returned) ∧
    max_pages final = Int 1.
Proof.
  split; [reflexivity|].
  destruct (single_page_session same_text quiet [NextPage; StopSquare] letters 10
              letters_on_one_page ltac:(discriminate) ltac:(simpl; lia)
              eq_refl eq_refl (fun _ => eq_refl))
    as (final & Hstart & Hmax & _).
  exists final. split; [exact Hstart|exact Hmax].
Defined.

Lemma multi_page_session_shape_witness :
  max_pages letters_paginator = Int 2 ∧
  ∃ es tail,
    (start same_text quiet [NextPage] letters_paginator).1.2
    = [CtxSend menu_loading] ++ map AddReactionTask valid_emojis ++ es ++ tail ∧
    Forall (fun op => is_edit op = true) es ∧
    (tail = [] ∨ tail = [ClearReactions]).
Proof.
  split; [reflexivity|].
  destruct (start same_text quiet [NextPage] letters_paginator)
    as [[final ops] out] eqn:Hstart.
  apply (multi_page_session_shape same_text quiet [NextPage] letters_paginator 2
           final ops out eq_refl ltac:(lia) eq_refl Hstart).
Defined.

Lemma navigate_to_nearest_page_witness :
  turn LastPage numbers_paginator 0 = Some (Int 3) ∧
  navigate LastPage numbers_paginator 0
  = (set_current_page (Some (Int 2)) numbers_paginator, None).
Proof.
  split; [reflexivity|].
  apply (navigate_to_nearest_page numbers_paginator LastPage 0 3 3 eq_refl
           ltac:(lia) eq_refl).
Defined.

Lemma session_keeps_page_valid_witness :
  0 < 1 ∧
  let final :=
    (start same_text no_clearing [LastPage; NextPage; PreviousPage]
           letters_paginator).1.1 in
  max_pages final = max_pages letters_paginator ∧
  ∃ m, max_pages letters_paginator = Int m ∧
       (current_page final = None ∨
        ∃ c, current_page final = Some (Int c) ∧ 0 <= c < m).
Proof.
  split; [lia|].
  apply (session_keeps_page_valid same_text no_clearing
           [LastPage; NextPage; PreviousPage] letters 1 letters_paginator
           ltac:(lia) ltac:(discriminate) eq_refl).
Defined.

Lemma failed_edit_escapes_witness :
  __init__ (Sequence letters) 1 = Ok letters_paginator ∧
  ∃ final d,
    start same_text no_editing [] letters_paginator
    = (final,
       [CtxSend menu_loading] ++ map AddReactionTask valid_emojis ++ [MessageEdit d],
       Raised Py.HTTPException).
Proof.
  split; [reflexivity|].
  apply (failed_edit_escapes same_text no_editing [] letters 1 letters_paginator
           Py.HTTPException ltac:(lia) ltac:(discriminate) eq_refl eq_refl
           (fun _ _ => eq_refl)).
Defined.

End PaginatorMore.

(** ** More on the error handler: replies, the owner bypass, escalation *)

Module ErrorHandlerMore.

Import ErrorHandler.

#[local] Arguments fetch_if_missing : simpl never.
#[local] Arguments fetch_ops : simpl never.
#[local] Arguments owner_ops : simpl never.

Section Listener.

Implicit Types (table : list (list exc_class * formatter_t)) (e : error)
         (ctx : Context) (bot : Bot) (world : platform).

(** *** [send_to_ctx_or_author] *)

(** X11. [send_to_ctx_or_author] tries the channel first and the author
    only when the channel was forbidden; it never lets a [Forbidden]
    escape, a [NotFound] of the channel is dropped without a message to the
    author, and when the channel is forbidden the author gets
    [author_text] if there is a non-empty one and [text] otherwise. *)
Theorem send_falls_back_quietly world (ops : list effect) text author_text :
  let r := send_to_ctx_or_author world ops text author_text in
  let dm := match author_text with
            | Some a => if String.eqb a "" then text else a
            | None => text
            end in
  r.2 ≠ Raised Py.Forbidden ∧
  (world ops (CtxSend text) = Some Py.Forbidden ->
   r.1 = ops ++ [CtxSend text; AuthorSend dm]) ∧
  (world ops (CtxSend text) ≠ Some Py.Forbidden ->
   r.1 = ops ++ [CtxSend text]) ∧
  (world ops (CtxSend text) = Some Py.NotFound -> r.2 = Returned).
Proof.
  intros r dm. subst r. unfold send_to_ctx_or_author. fold dm.
  destruct (world ops (CtxSend text)) as [x|] eqn:Hw; [|by repeat split].
  destruct x; simpl; try (by repeat split).
  destruct (world (ops ++ [CtxSend text]) (AuthorSend dm)) as [[]|]; simpl;
    repeat split; try done; intros _; by rewrite <- app_assoc.
Qed.

(** *** The owner bypass *)

(** X12. For an error that is not ignored, when the (original) author is
    an owner of the bot and the error is one of [owner_reinvoke_errors],
    the command is reinvoked and that is all: whatever the table says about
    the error, nothing is sent to anybody, and what [reinvoke] raises is
    what leaves the listener. *)
Theorem owner_is_reinvoked table bot world ctx e :
  isinstance e ignored_errors = false ->
  original_author ctx ∈ owner_ids bot ->
  isinstance e owner_reinvoke_errors = true ->
  on_command_error_with table bot world ctx e
  = (set_original_author_id (original_author ctx) ctx, [Reinvoke],
     match world [] Reinvoke with
     | None => Returned
     | Some x => Raised x
     end).
Proof.
  intros Hign Hown Hre. unfold on_command_error_with, original_author in *.
  rewrite Hign, Hre. simpl. by rewrite (bool_decide_eq_true_2 _ Hown).
Qed.

(** X13. The listener records the original author once: after it has
    handled an error that is not ignored, [original_author_id] is the id
    it already was, or the author's when there was none, the rest of the
    context is untouched, and handling any further error with that context
    leaves the context as it is. *)
Theorem original_author_is_kept table bot world ctx e bot' world' e' :
  isinstance e ignored_errors = false ->
  let ctx1 := (on_command_error_with table bot world ctx e).1.1 in
  ctx1 = set_original_author_id (original_author ctx) ctx ∧
  (on_command_error_with table bot' world' ctx1 e').1.1 = ctx1.
Proof.
  intros Hign.
  assert (Hctx : ∀ bot world ctx e,
             (on_command_error_with table bot world ctx e).1.1
             = if isinstance e ignored_errors then ctx
               else set_original_author_id (original_author ctx) ctx).
  { clear. intros bot world ctx e. unfold on_command_error_with, original_author.
    destruct (isinstance e ignored_errors); [done|].
    destruct (_ && _); [done|].
    destruct (respond _ _ _) as [o|x]; [|done].
    destruct (truthy o).
    - by destruct (send_output _ _ _).
    - by destruct (escalate _ _ _ _ _). }
  simpl. rewrite !Hctx, Hign. split; [done|].
  by destruct (isinstance e' ignored_errors).
Qed.

(** *** Replies from the table *)

(** X14. A reply that is a plain string is never delivered: for an error
    that is neither ignored nor bypassed, when the table's output is a
    non-empty string of any length but two, [_, _ = output] raises
    [ValueError], which [except TypeError] does not catch; it leaves the
    listener and nothing is sent. *)
Theorem text_reply_raises table bot world ctx e s :
  isinstance e ignored_errors = false ->
  bool_decide (original_author ctx ∈ owner_ids bot)
  && isinstance e owner_reinvoke_errors = false ->
  respond table (set_original_author_id (original_author ctx) ctx) e = Ok (OStr s) ->
  s ≠ "" -> String.length s ≠ 2%nat ->
  on_command_error_with table bot world ctx e
  = (set_original_author_id (original_author ctx) ctx, [], Raised ValueError).
Proof.
  intros Hign Hby Hout Hne Hlen.
  unfold on_command_error_with, original_author in *.
  rewrite Hign, Hby, Hout. simpl.
  destruct s as [|a [|b [|c s]]]; simpl in *; done.
Qed.

(** The tests of the listener on an error whose classes are known. *)
Ltac known_classes H :=
  let e := match type of H with classes ?e = _ => e end in
  destruct e; simpl in H; subst; reflexivity.

Lemma forbidden_tests ctx e :
  classes e = [Forbidden; HTTPException] ->
  isinstance e ignored_errors = false ∧
  isinstance e owner_reinvoke_errors = false ∧
  respond COMMAND_ERROR_RESPONSES ctx e
  = Ok (OPair "Discord is saying I'm unable to perform that action."
              "Discord is saying I'm unable to perform that action - I probably don't have permission to talk in that channel.").
Proof. intros H. split_and!; known_classes H. Qed.

Lemma unnamed_tests ctx e :
  classes e = [] ->
  isinstance e ignored_errors = false ∧
  isinstance e owner_reinvoke_errors = false ∧
  respond COMMAND_ERROR_RESPONSES ctx e = Ok ONone.
Proof. intros H. split_and!; known_classes H. Qed.

(** X15. A [discord.Forbidden] (whose classes are [Forbidden] and
    [HTTPException]) is the one kind of error the table answers in full:
    whoever ran the command, the short text goes to the channel through
    [send_to_ctx_or_author], with the long text for the author in case the
    channel is forbidden. *)
Theorem forbidden_is_answered bot world ctx e :
  classes e = [Forbidden; HTTPException] ->
  on_command_error bot world ctx e
  = let (ops, out) :=
      send_to_ctx_or_author world []
        "Discord is saying I'm unable to perform that action."
        (Some "Discord is saying I'm unable to perform that action - I probably don't have permission to talk in that channel.") in
    (set_original_author_id (original_author ctx) ctx, ops, out).
Proof.
  intros Hcls. unfold on_command_error, on_command_error_with, original_author.
  destruct (forbidden_tests
              (set_original_author_id (default (author_id ctx) (original_author_id ctx)) ctx)
              e Hcls) as (-> & -> & Hout).
  cbv zeta. rewrite Hout, andb_false_r. done.
Qed.

(** *** Escalation *)

Lemma dm_owners_all_delivered bot (ops : list effect) ids text :
  dm_owners bot (fun _ _ => None) ops ids text
  = (ops ++ concat (owner_ops bot text <$> ids), None).
Proof.
  revert ops. induction ids as [|owner_id ids IH]; intros ops; simpl.
  - by rewrite app_nil_r.
  - unfold owner_ops at 1, fetch_ops.
    destruct (fetch_if_missing bot owner_id); simpl;
      by rewrite IH, <- !app_assoc.
Qed.

(** X16. An error of a type the file names nowhere, raised in a guild, on
    a platform where nothing fails, with the owners configured and a
    webhook URL that [Webhook.from_url] accepts: the raw error goes to the
    channel; then, when [dm_uncaught_errors] is set, every configured
    owner, in the order of the configuration, is fetched if the user cache
    does not hold that user and is sent the report; then the report goes to
    the webhook; and the error is raised again. *)
Theorem unknown_error_is_reported bot ctx e guild dm ids url :
  classes e = [] ->
  guild_id ctx = Some guild ->
  config bot = Some (Cfg dm (Some ids) (Some url)) ->
  webhook_pattern_found url = true ->
  on_command_error bot (fun _ _ => None) ctx e
  = (set_original_author_id (original_author ctx) ctx,
     [CtxSend (raw_text e)]
     ++ (if dm
         then concat (owner_ops bot (error_text ctx e guild) <$> ids)
         else [])
     ++ [WebhookSend url (error_text ctx e guild) (user_name bot +:+ " - Error")],
     Reraised).
Proof.
  intros Hcls Hguild Hcfg Hurl.
  unfold on_command_error, on_command_error_with, original_author.
  destruct (unnamed_tests
              (set_original_author_id (default (author_id ctx) (original_author_id ctx)) ctx)
              e Hcls) as (-> & -> & Hout).
  cbv zeta. rewrite Hout, andb_false_r. simpl.
  unfold escalate. simpl. rewrite Hguild, Hcfg. simpl.
  assert (String.eqb url "" = false) as ->.
  { apply String.eqb_neq. intros ->. discriminate Hurl. }
  unfold from_url. rewrite Hurl.
  destruct dm; simpl.
  - rewrite dm_owners_all_delivered. reflexivity.
  - done.
Qed.

(** X17. The same error raised in a direct message, where there is no
    guild: whatever the platform does, the raw error to the channel is the
    only operation, an exception leaves the listener ([AttributeError] from
    [ctx.guild.id] unless the send itself failed otherwise), and neither
    the owners nor the webhook hear of it. *)
Theorem unknown_error_in_dm bot world ctx e :
  classes e = [] ->
  guild_id ctx = None ->
  ∃ x,
    on_command_error bot world ctx e
    = (set_original_author_id (original_author ctx) ctx,
       [CtxSend (raw_text e)], Raised x) ∧
    (x = AttributeError ∨ world [] (CtxSend (raw_text e)) = Some x).
Proof.
  intros Hcls Hguild.
  unfold on_command_error, on_command_error_with, original_author.
  destruct (unnamed_tests
              (set_original_author_id (default (author_id ctx) (original_author_id ctx)) ctx)
              e Hcls) as (-> & -> & Hout).
  cbv zeta. rewrite Hout, andb_false_r. simpl.
  unfold escalate, raw_text. simpl. rewrite Hguild.
  destruct (world [] _) as [[]|]; simpl; eexists; split; try reflexivity; auto.
Qed.

(** X18. The owners are handled in the order of the configuration, and
    the first failure ends the loop. When nothing failed, every owner was
    fetched (if the cache did not hold the user) and written to. When
    something failed with [x], that is so for the owners before some owner
    [k], and for owner [k] either the fetch raised [x] and nothing was
    sent to that owner, or the fetch (if any) went through and the send
    raised [x]; no later owner is touched. *)
Theorem dm_owners_in_order bot world (ops : list effect) ids text :
  let r := dm_owners bot world ops ids text in
  match r.2 with
  | None => r.1 = ops ++ concat (owner_ops bot text <$> ids)
  | Some x =>
      ∃ k owner_id,
        ids !! k = Some owner_id ∧
        let before := ops ++ concat (owner_ops bot text <$> take k ids) in
        (fetch_ops bot owner_id = [FetchUser owner_id] ∧
         world before (FetchUser owner_id) = Some x ∧
         r.1 = before ++ [FetchUser owner_id]) ∨
        (world (before ++ fetch_ops bot owner_id) (OwnerSend owner_id text) = Some x ∧
         r.1 = before ++ owner_ops bot text owner_id)
  end.
Proof.
  revert ops. induction ids as [|owner_id ids IH]; intros ops; simpl.
  - by rewrite app_nil_r.
  - assert (Hfetch :
      (fetch_if_missing bot owner_id = None ∧ fetch_ops bot owner_id = [] ∧
       owner_ops bot text owner_id = [OwnerSend owner_id text]) ∨
      (fetch_if_missing bot owner_id = Some (FetchUser owner_id) ∧
       fetch_ops bot owner_id = [FetchUser owner_id] ∧
       owner_ops bot text owner_id = [FetchUser owner_id; OwnerSend owner_id text])).
    { unfold owner_ops, fetch_ops, fetch_if_missing. case_bool_decide; auto. }
    destruct Hfetch as [(Hf & Hfo & Hown)|(Hf & Hfo & Hown)]; rewrite Hf; simpl.
    + destruct (world ops (OwnerSend owner_id text)) as [x|] eqn:Hsend; simpl.
      * exists 0%nat, owner_id. split; [done|]. right. simpl.
        by rewrite Hown, Hfo, !app_nil_r.
      * specialize (IH (ops ++ [OwnerSend owner_id text])). simpl in IH.
        destruct (dm_owners bot world _ ids text) as [ops' [x|]]; simpl in *.
        -- destruct IH as (k & o & Hk & Hcase). exists (S k), o. split; [done|].
           simpl. rewrite Hown. rewrite <- !app_assoc in Hcase.
              rewrite <- ?app_assoc. simpl in *. exact Hcase.
        -- rewrite Hown. by rewrite IH, <- app_assoc.
    + destruct (world ops (FetchUser owner_id)) as [x|] eqn:Hfetched; simpl.
      * exists 0%nat, owner_id. split; [done|]. left. simpl.
        by rewrite Hfo, !app_nil_r.
      * destruct (world (ops ++ [FetchUser owner_id]) (OwnerSend owner_id text))
          as [x|] eqn:Hsend; simpl.
        -- exists 0%nat, owner_id. split; [done|]. right. simpl.
           rewrite Hown, Hfo, !app_nil_r. split; [done|]. by rewrite <- app_assoc.
        -- specialize (IH ((ops ++ [FetchUser owner_id]) ++ [OwnerSend owner_id text])).
           simpl in IH.
           destruct (dm_owners bot world _ ids text) as [ops' [x|]]; simpl in *.
           ++ destruct IH as (k & o & Hk & Hcase). exists (S k), o. split; [done|].
              simpl. rewrite Hown. rewrite <- !app_assoc in Hcase.
              rewrite <- ?app_assoc. simpl in *. exact Hcase.
           ++ rewrite Hown. by rewrite IH, <- !app_assoc.
Qed.

Lemma dm_owners_extends bot world (ops : list effect) ids text :
  ∃ more, (dm_owners bot world ops ids text).1 = ops ++ more.
Proof.
  revert ops. induction ids as [|owner_id ids IH]; intros ops; simpl.
  - exists []. by rewrite app_nil_r.
  - destruct (fetch_if_missing bot owner_id) as [op|]; simpl.
    + destruct (world ops op); simpl; [by eexists|].
      destruct (world (ops ++ [op]) (OwnerSend owner_id text)); simpl.
      * rewrite <- app_assoc. by eexists.
      * destruct (IH ((ops ++ [op]) ++ [OwnerSend owner_id text])) as (more & ->).
        rewrite <- !app_assoc. by eexists.
    + destruct (world ops (OwnerSend owner_id text)); simpl; [by eexists|].
      destruct (IH (ops ++ [OwnerSend owner_id text])) as (more & ->).
      rewrite <- app_assoc. by eexists.
Qed.

(** X19. Escalation never ends quietly: whatever the bot's configuration
    and whatever the platform does, the code from the raw send on first
    tries that send and never returns; it ends in [raise error] or in the
    exception of one of its own steps. *)
Theorem escalation_never_returns bot world ctx e (ops : list effect) :
  let r := escalate bot world ctx e ops in
  r.2 ≠ Returned ∧ ∃ more, r.1 = ops ++ CtxSend (raw_text e) :: more.
Proof.
  unfold escalate, raw_text. simpl.
  set (raw := "```py" +:+ nl +:+ err_str e +:+ "```").
  assert (Hgo : ∀ (r : list effect * outcome) (ops1 : list effect) (o : outcome),
             r = (ops1, o) -> o ≠ Returned ->
             (∃ more, ops1 = (ops ++ [CtxSend raw]) ++ more) ->
             r.2 ≠ Returned ∧ ∃ more, r.1 = ops ++ CtxSend raw :: more).
  { intros r ops1 o -> Ho (more & ->). split; [done|].
    exists more. by rewrite <- app_assoc. }
  assert (Hrest :
    ∀ guild : Z,
      let r :=
        (let error_text :=
           "Error `" +:+ err_str e +:+ "` encountered." +:+ nl +:+
           "Guild `" +:+ pretty guild +:+ "`, channel `" +:+ pretty (channel_id ctx) +:+
           "`, user `" +:+ pretty (author_id ctx) +:+ "`" +:+ nl +:+
           "```" +:+ nl +:+ message_content ctx +:+ nl +:+ "```" in
         let dm := match config bot with
                   | Some c => dm_uncaught_errors c
                   | None => false
                   end in
         let (done, failed) :=
           if dm then
             match config bot with
             | Some (Cfg _ (Some ids) _) =>
                 dm_owners bot world (ops ++ [CtxSend raw]) ids error_text
             | _ => (ops ++ [CtxSend raw], Some (OtherException "KeyError"))
             end
           else (ops ++ [CtxSend raw], None) in
         match failed with
         | Some x => (done, Raised x)
         | None =>
             match config bot with
             | None => (done, Raised AttributeError)
             | Some c =>
                 match event_webhook_url c with
                 | Some url =>
                     if String.eqb url "" then (done, Reraised)
                     else
                       match from_url url with
                       | Some x => (done, Raised x)
                       | None =>
                           let op := WebhookSend url error_text (user_name bot +:+ " - Error") in
                           match world done op with
                           | Some x => (done ++ [op], Raised x)
                           | None => (done ++ [op], Reraised)
                           end
                       end
                 | None => (done, Reraised)
                 end
             end
         end) in
      r.2 ≠ Returned ∧ ∃ more, r.1 = ops ++ CtxSend raw :: more).
  { intros guild. cbv zeta. set (text := ("Error `" +:+ _)%string).
    destruct (config bot) as [[dm [ids|] url]|]; cbn [dm_uncaught_errors event_webhook_url].
    - destruct dm.
      + destruct (dm_owners_extends bot world (ops ++ [CtxSend raw]) ids text)
          as (more & Hmore).
        destruct (dm_owners bot world (ops ++ [CtxSend raw]) ids text) as [ops1 [x|]];
          simpl in Hmore; subst ops1.
        * eapply Hgo; [reflexivity|done|by eexists].
        * destruct url as [url|]; [|eapply Hgo; [reflexivity|done|by eexists]].
          destruct (String.eqb url ""); [eapply Hgo; [reflexivity|done|by eexists]|].
          destruct (from_url url); [eapply Hgo; [reflexivity|done|by eexists]|].
          cbv zeta. destruct (world _ _);
            (eapply Hgo; [reflexivity|done|rewrite <- app_assoc; by eexists]).
      + destruct url as [url|]; [|eapply Hgo; [reflexivity|done|by exists []; rewrite app_nil_r]].
        destruct (String.eqb url "");
          [eapply Hgo; [reflexivity|done|by exists []; rewrite app_nil_r]|].
        destruct (from_url url);
          [eapply Hgo; [reflexivity|done|by exists []; rewrite app_nil_r]|].
        cbv zeta. destruct (world _ _); (eapply Hgo; [reflexivity|done|by eexists]).
    - destruct dm.
      + eapply Hgo; [reflexivity|done|by exists []; rewrite app_nil_r].
      + destruct url as [url|]; [|eapply Hgo; [reflexivity|done|by exists []; rewrite app_nil_r]].
        destruct (String.eqb url "");
          [eapply Hgo; [reflexivity|done|by exists []; rewrite app_nil_r]|].
        destruct (from_url url);
          [eapply Hgo; [reflexivity|done|by exists []; rewrite app_nil_r]|].
        cbv zeta. destruct (world _ _); (eapply Hgo; [reflexivity|done|by eexists]).
    - eapply Hgo; [reflexivity|done|by exists []; rewrite app_nil_r]. }
  assert (Hnone : (ops ++ [CtxSend raw], Raised AttributeError).2 ≠ Returned ∧
                  ∃ more, (ops ++ [CtxSend raw], Raised AttributeError).1
                          = ops ++ CtxSend raw :: more)
    by (split; [done|by exists []]).
  destruct (world ops (CtxSend raw)) as [[]|];
    try (split; [done|by exists []]);
    (destruct (guild_id ctx) as [guild|]; [apply Hrest|exact Hnone]).
Qed.

End Listener.

(** *** The statements above at concrete inputs *)

Import ErrorScenario.

Lemma send_falls_back_quietly_witness :
  channel_forbidden [] (CtxSend "short") = Some Py.Forbidden ∧
  (send_to_ctx_or_author channel_forbidden [] "short" (Some "long")).1
  = [CtxSend "short"; AuthorSend "long"].
Proof.
  split; [reflexivity|].
  apply (send_falls_back_quietly channel_forbidden [] "short" (Some "long")).
  reflexivity.
Defined.

Lemma owner_is_reinvoked_witness :
  original_author the_owner ∈ owner_ids a_bot ∧
  on_command_error a_bot quiet the_owner on_cooldown
  = (set_original_author_id 1 the_owner, [Reinvoke], Returned).
Proof.
  split; [by left|].
  apply (owner_is_reinvoked COMMAND_ERROR_RESPONSES a_bot quiet the_owner on_cooldown
           eq_refl ltac:(by left) eq_refl).
Defined.

Lemma original_author_is_kept_witness :
  isinstance on_cooldown ignored_errors = false ∧
  (on_command_error a_bot quiet somebody on_cooldown).1.1
  = set_original_author_id 7 somebody ∧
  (on_command_error two_owner_bot channel_forbidden
     (set_original_author_id 7 somebody) unknown_error).1.1
  = set_original_author_id 7 somebody.
Proof.
  split; [reflexivity|].
  apply (original_author_is_kept COMMAND_ERROR_RESPONSES a_bot quiet somebody
           on_cooldown two_owner_bot channel_forbidden unknown_error eq_refl).
Defined.

Lemma text_reply_raises_witness :
  respond COMMAND_ERROR_RESPONSES (set_original_author_id 7 somebody) disabled
  = Ok (OStr "This command has been disabled.") ∧
  on_command_error a_bot quiet somebody disabled
  = (set_original_author_id 7 somebody, [], Raised ValueError).
Proof.
  split; [reflexivity|].
  apply (text_reply_raises COMMAND_ERROR_RESPONSES a_bot quiet somebody disabled
           "This command has been disabled." eq_refl eq_refl eq_refl);
    [discriminate|vm_compute; discriminate].
Defined.

Lemma forbidden_is_answered_witness :
  classes forbidden = [Forbidden; HTTPException] ∧
  on_command_error a_bot channel_forbidden somebody forbidden
  = (set_original_author_id 7 somebody,
     [ CtxSend "Discord is saying I'm unable to perform that action.";
       AuthorSend "Discord is saying I'm unable to perform that action - I probably don't have permission to talk in that channel." ],
     Returned).
Proof.
  split; [reflexivity|].
  apply (forbidden_is_answered a_bot channel_forbidden somebody forbidden eq_refl).
Defined.

Lemma unknown_error_is_reported_witness :
  classes unknown_error = [] ∧
  webhook_pattern_found hook = true ∧
  on_command_error two_owner_bot (fun _ _ => None) somebody unknown_error
  = (set_original_author_id 7 somebody,
     [ CtxSend (raw_text unknown_error);
       OwnerSend 1 (error_text somebody unknown_error 100);
       FetchUser 2;
       OwnerSend 2 (error_text somebody unknown_error 100);
       WebhookSend hook (error_text somebody unknown_error 100) "VoxelBot - Error" ],
     Reraised).
Proof.
  split; [reflexivity|]. split; [reflexivity|].
  apply (unknown_error_is_reported two_owner_bot somebody unknown_error 100 true
           [1; 2] hook eq_refl eq_refl eq_refl eq_refl).
Defined.

(** A webhook URL the library turns down: the owner gets the report, the
    webhook is never written to, and [InvalidArgument] leaves the listener.
    An owner that cannot be fetched: nothing is sent to that owner, and the
    exception of the fetch leaves the listener before the webhook is
    reached. *)
Example report_stops_at_bad_url_or_failed_fetch :
  on_command_error bad_hook_bot quiet somebody unknown_error
  = (set_original_author_id 7 somebody,
     [ CtxSend (raw_text unknown_error);
       OwnerSend 1 (error_text somebody unknown_error 100) ],
     Raised (OtherException "InvalidArgument")) ∧
  on_command_error two_owner_bot no_fetching somebody unknown_error
  = (set_original_author_id 7 somebody,
     [ CtxSend (raw_text unknown_error);
       OwnerSend 1 (error_text somebody unknown_error 100);
       FetchUser 2 ],
     Raised Py.NotFound).
Proof. split; vm_compute; reflexivity. Qed.

Lemma unknown_error_in_dm_witness :
  guild_id in_dm = None ∧
  ∃ x,
    on_command_error two_owner_bot quiet in_dm unknown_error
    = (set_original_author_id 7 in_dm, [CtxSend (raw_text unknown_error)], Raised x) ∧
    (x = AttributeError ∨ quiet [] (CtxSend (raw_text unknown_error)) = Some x).
Proof.
  split; [reflexivity|].
  apply (unknown_error_in_dm two_owner_bot quiet in_dm unknown_error eq_refl eq_refl).
Defined.

End ErrorHandlerMore.
